(** * listen-better: the recommendation-collection loop and playlist sync

    A shallow embedding of [listen-better.py].  Python values are modelled
    as follows.

    - [str] is [string]; a character [c : ascii] stands for the code point
      [N_of_ascii c], so the model covers text in the range U+0000..U+00FF.
      [str.lower], [str.strip], [str.isdigit] and [int(str)] are written out
      for that range.
    - A Python [set] is a [gset]; a [list] is a [list]; [None] is [None].
    - The catalog client, the recommendation oracle and the process
      environment are fields of a record [World]: every call the script
      makes is answered by the corresponding field, indexed by the position
      of the call where the answer may change from call to call.
    - Exceptions are explicit results; [time.sleep] and [print] are not
      modelled. *)

From stdpp Require Import gmap strings list.
From Stdlib Require Import ZArith Ascii String.

Set Warnings "-register-all".

Local Open Scope string_scope.
Local Open Scope list_scope.

(** ** Python text primitives *)

Module Py.

Definition code (c : ascii) : N := N_of_ascii c.

(** [str.isspace] on one code point below U+0100. *)
Definition is_space (c : ascii) : bool :=
  let n := code c in
  (((9 <=? n) && (n <=? 13)) || ((28 <=? n) && (n <=? 32))
   || (n =? 133) || (n =? 160))%N.

(** [str.lower] on one code point below U+0100: A-Z and the Latin-1
    capitals U+00C0..U+00DE except the multiplication sign U+00D7. *)
Definition lower_char (c : ascii) : ascii :=
  let n := code c in
  if (((65 <=? n) && (n <=? 90))
      || ((192 <=? n) && (n <=? 222) && negb (n =? 215)))%N
  then ascii_of_N (n + 32) else c.

Fixpoint lower (s : string) : string :=
  match s with
  | EmptyString => EmptyString
  | String c r => String (lower_char c) (lower r)
  end.

Fixpoint lstrip (s : string) : string :=
  match s with
  | EmptyString => EmptyString
  | String c r => if is_space c then lstrip r else s
  end.

Fixpoint rstrip (s : string) : string :=
  match s with
  | EmptyString => EmptyString
  | String c r =>
      match rstrip r with
      | EmptyString => if is_space c then EmptyString else String c EmptyString
      | r' => String c r'
      end
  end.

(** [s.strip()] *)
Definition strip (s : string) : string := rstrip (lstrip s).

(** Truth value of a [str]: the empty string is false. *)
Definition truthy (s : string) : bool :=
  match s with EmptyString => false | _ => true end.

(** Truth value of an optional [str] ([None] or a string). *)
Definition truthy_opt (o : option string) : bool :=
  match o with Some s => truthy s | None => false end.

Definition is_ascii_digit (c : ascii) : bool :=
  ((48 <=? code c) && (code c <=? 57))%N.

(** [str.isdigit] on one code point: the decimal digits and the
    superscripts U+00B2, U+00B3, U+00B9. *)
Definition is_digit_char (c : ascii) : bool :=
  is_ascii_digit c
  || ((code c =? 178) || (code c =? 179) || (code c =? 185))%N.

Fixpoint all_chars (p : ascii -> bool) (s : string) : bool :=
  match s with
  | EmptyString => true
  | String c r => p c && all_chars p r
  end.

(** [s.isdigit()]: non-empty and every character a digit. *)
Definition isdigit (s : string) : bool :=
  truthy s && all_chars is_digit_char s.

(** [s.split('-')[0]]: the text before the first hyphen. *)
Fixpoint before_hyphen (s : string) : string :=
  match s with
  | EmptyString => EmptyString
  | String c r =>
      if (code c =? 45)%N then EmptyString else String c (before_hyphen r)
  end.

Definition digit_val (c : ascii) : Z := (Z.of_N (code c) - 48)%Z.

(** The digit part of an integer literal: decimal digits, single
    underscores allowed between two digits.  [prev] tells whether the
    previous character was a digit. *)
Fixpoint int_digits (acc : Z) (prev : bool) (s : string) : option Z :=
  match s with
  | EmptyString => if prev then Some acc else None
  | String c r =>
      if is_ascii_digit c then int_digits (10 * acc + digit_val c)%Z true r
      else if (code c =? 95)%N then
             if prev then int_digits acc false r else None
      else None
  end.

(** [int(s)] in base 10; [None] stands for [ValueError]. *)
Definition int (s : string) : option Z :=
  match strip s with
  | String c r =>
      if (code c =? 43)%N then int_digits 0%Z false r
      else if (code c =? 45)%N then Z.opp <$> int_digits 0%Z false r
      else int_digits 0%Z false (String c r)
  | EmptyString => None
  end.

End Py.

(** ** Data model *)

(** A dictionary with the keys "track" and "artist": a liked song as
    [get_all_liked_songs_details] records it, and an oracle suggestion as
    [get_gemini_recommendations_google_ai] returns it. *)
Record Song := { track : string; artist : string }.

(** An entry of [get_playlist_tracks_simplified]: keys "track", "artist",
    "id". *)
Record PlaylistTrack := { pt_track : string; pt_artist : string; pt_id : string }.

(** [song_info] of [verify_and_filter_songs_on_spotify]. *)
Record SongInfo := {
  si_uri : string;
  si_id : string;
  si_track : string;
  si_artist : string;
  si_popularity : option Z;
  si_release_year : option Z
}.

(** *** What the catalog returns *)

Record Artist := { artist_name : string }.

(** The track object inside an item of a paginated read (saved tracks,
    playlist items).  The script reads it with [.get], so every key may be
    missing. *)
Record ItemTrack := {
  it_id : option string;
  it_name : option string;
  it_artists : list Artist
}.

(** One page of a paginated read: the call raises, or returns [items]
    (each with an optional "track") and a "next" link that is present or
    not. *)
Inductive Page :=
| PageRaises
| PageOf (items : list (option ItemTrack)) (next : bool).

(** A track object of a search result. *)
Record Track := {
  tr_uri : string;
  tr_id : string;
  tr_name : string;
  tr_artists : list Artist;
  tr_popularity : option Z;
  tr_release_date : option string   (* album.release_date, when present *)
}.

Inductive SearchOutcome :=
| SearchRaises
| SearchItems (items : list Track).     (* results['tracks']['items'] *)

Record PlaylistObj := { pl_name : string; pl_owner : string; pl_id : string }.

(** *** What the oracle returns *)

Inductive OracleOutcome :=
| ApiError                              (* generate_content or .text raises *)
| ResponseText (text : string).

(** A parsed JSON document, as [json.loads] builds it.  An object keeps its
    members in document order; [json.loads] leaves no repeated key. *)
Inductive json :=
| JNull
| JBool (b : bool)
| JNum (literal : string)
| JStr (s : string)
| JArr (elems : list json)
| JObj (members : list (string * json)).

(** *** Conversation messages *)

Inductive Role := user | model | assistant.

#[global] Instance Role_eq_dec : EqDecision Role.
Proof. solve_decision. Defined.

(** The text of a message.  The two prompts are f-strings over fixed
    templates; they are kept as the data the template is filled with. *)
Inductive Content :=
| initial_user_prompt_content (liked_sample : list Song)
| follow_up_user_prompt_content (suggested_so_far : list Song)
| raw_text (text : string).

(** [{"role": ..., "content": ...}] *)
Record Message := { role : Role; content : Content }.

(** [{'role': ..., 'parts': [content]}] *)
Record AdaptedMessage := { a_role : Role; parts : list Content }.

(** *** Calls to the outside world, in the order they are made *)

Inductive Event :=
| CallMe
| CallSavedTracks (offset : nat)
| CallUserPlaylists
| CallNextPage
| CallPlaylistCreate (name : string)
| CallPlaylistItems (playlist_id : string) (offset : nat)
| CallGenerateContent (history : list AdaptedMessage)
| CallSearch (q : string)
| CallReplaceItems (playlist_id : string) (track_uris : list string)
| CallAddItems (playlist_id : string) (track_uris : list string)
| CallPlaylist (playlist_id : string).

(** The environment of one run. *)
Record World := {
  (* os.getenv *)
  SPOTIFY_CLIENT_ID : option string;
  SPOTIFY_CLIENT_SECRET : option string;
  SPOTIFY_REDIRECT_URI : option string;
  GOOGLE_AI_API_KEY : option string;
  (* sp.me()['id']; None when the call raises *)
  w_me : option string;
  (* the pages of the user's saved tracks *)
  w_saved_tracks : list Page;
  (* the pages of the user's playlists at the n-th listing; None: raises *)
  w_user_playlists : nat -> option (list (list PlaylistObj));
  (* sp.user_playlist_create(...)['id']; None when the call raises *)
  w_playlist_create : string -> option string;
  (* the pages of a playlist's items *)
  w_playlist_items : string -> list Page;
  (* random.shuffle *)
  w_shuffle : list Song -> list Song;
  (* the oracle's answer at attempt n to the history sent *)
  w_generate_content : nat -> list AdaptedMessage -> OracleOutcome;
  (* sp.search at attempt n, for the i-th suggestion of the batch *)
  w_search : nat -> nat -> string -> SearchOutcome;
  (* whether the i-th write request of sync step n raises *)
  w_write_raises : nat -> nat -> bool;
  (* sp.playlist(id)['external_urls']['spotify']; None when it raises *)
  w_playlist_url : string -> option string
}.

(** The tunable policy values. *)
Record Config := {
  TARGET_NEW_SONGS_COUNT : nat;
  MAX_GEMINI_ATTEMPTS : nat;
  MAX_SONGS_TO_GEMINI_PROMPT : nat;
  MAX_POPULARITY_THRESHOLD : option Z;
  MIN_RELEASE_YEAR : option Z
}.

Definition source_config : Config :=
  {| TARGET_NEW_SONGS_COUNT := 20;
     MAX_GEMINI_ATTEMPTS := 10;
     MAX_SONGS_TO_GEMINI_PROMPT := 150;
     MAX_POPULARITY_THRESHOLD := Some 60%Z;
     MIN_RELEASE_YEAR := Some 2021%Z |}.

Definition NEW_PLAYLIST_NAME : string := "New AI Deep Cuts".
Definition ALL_RECS_PLAYLIST_NAME : string := "All AI Deep Cuts History".

(** A call that returns a value or raises. *)
Inductive Result (A : Type) :=
| Returns (a : A)
| Raises.
Arguments Returns {A} a.
Arguments Raises {A}.

(** ** Catalog reads *)

(** The body of the [for item in results['items']] loop of
    [get_all_liked_songs_details]: what one item appends. *)
Definition liked_song_of_item (item : option ItemTrack) : list Song :=
  match item with
  | Some track_ =>
      match it_name track_, it_artists track_ with
      | Some name, a :: _ =>
          if Py.truthy name
          then [ {| track := name; artist := artist_name a |} ]
          else []
      | _, _ => []
      end
  | None => []
  end.

(** The [while True] loop of [get_all_liked_songs_details], from the page at
    [offset] on.  Reading past the last page returns no items. *)
Fixpoint get_all_liked_songs_details_from (pages : list Page) (offset : nat)
  : list Song * list Event :=
  match pages with
  | [] => ([], [CallSavedTracks offset])
  | PageRaises :: _ => ([], [CallSavedTracks offset])
  | PageOf [] _ :: _ => ([], [CallSavedTracks offset])
  | PageOf items next :: rest =>
      let here := List.concat (map liked_song_of_item items) in
      if next then
        let '(more, ev) := get_all_liked_songs_details_from rest (offset + 50) in
        (here ++ more, CallSavedTracks offset :: ev)
      else (here, [CallSavedTracks offset])
  end.

Definition get_all_liked_songs_details (w : World) : list Song * list Event :=
  get_all_liked_songs_details_from (w_saved_tracks w) 0.

Definition playlist_track_of_item (item : option ItemTrack) : list PlaylistTrack :=
  match item with
  | Some track_info =>
      match it_id track_info, it_name track_info, it_artists track_info with
      | Some id, Some name, a :: _ =>
          if Py.truthy id && Py.truthy name
          then [ {| pt_track := name; pt_artist := artist_name a; pt_id := id |} ]
          else []
      | _, _, _ => []
      end
  | None => []
  end.

Fixpoint get_playlist_tracks_simplified_from
  (playlist_id : string) (pages : list Page) (offset : nat)
  : list PlaylistTrack * list Event :=
  match pages with
  | [] => ([], [CallPlaylistItems playlist_id offset])
  | PageRaises :: _ => ([], [CallPlaylistItems playlist_id offset])
  | PageOf [] _ :: _ => ([], [CallPlaylistItems playlist_id offset])
  | PageOf items next :: rest =>
      let here := List.concat (map playlist_track_of_item items) in
      if next then
        let '(more, ev) :=
          get_playlist_tracks_simplified_from playlist_id rest (offset + 100) in
        (here ++ more, CallPlaylistItems playlist_id offset :: ev)
      else (here, [CallPlaylistItems playlist_id offset])
  end.

Definition get_playlist_tracks_simplified (w : World) (playlist_id : option string)
  : list PlaylistTrack * list Event :=
  match playlist_id with
  | Some id =>
      if Py.truthy id
      then get_playlist_tracks_simplified_from id (w_playlist_items w id) 0
      else ([], [])
  | None => ([], [])
  end.

(** The [while playlists] loop of [get_playlist_by_name] over the pages of
    the listing; each further page costs one [sp.next]. *)
Fixpoint get_playlist_by_name_from
  (pages : list (list PlaylistObj)) (playlist_name user_id : string)
  : option PlaylistObj * list Event :=
  match pages with
  | [] => (None, [])
  | items :: rest =>
      match find (fun playlist =>
                    String.eqb (pl_name playlist) playlist_name
                    && String.eqb (pl_owner playlist) user_id) items with
      | Some playlist => (Some playlist, [])
      | None =>
          match rest with
          | [] => (None, [])
          | _ =>
              let '(r, ev) := get_playlist_by_name_from rest playlist_name user_id in
              (r, CallNextPage :: ev)
          end
      end
  end.

(** [n] numbers the listings of one run. *)
Definition get_playlist_by_name (w : World) (n : nat) (playlist_name user_id : string)
  : Result (option PlaylistObj) * list Event :=
  match w_user_playlists w n with
  | None => (Raises, [CallUserPlaylists])
  | Some pages =>
      let '(r, ev) := get_playlist_by_name_from pages playlist_name user_id in
      (Returns r, CallUserPlaylists :: ev)
  end.

Definition get_or_create_playlist_id
  (w : World) (n : nat) (user_id playlist_name : string)
  : Result (option string) * list Event :=
  match get_playlist_by_name w n playlist_name user_id with
  | (Raises, ev) => (Raises, ev)
  | (Returns (Some playlist_object), ev) => (Returns (Some (pl_id playlist_object)), ev)
  | (Returns None, ev) =>
      (Returns (w_playlist_create w playlist_name),
       ev ++ [CallPlaylistCreate playlist_name])
  end.

(** ** The oracle call and its parser *)

Section Program.

(** [json.loads]: [None] stands for [json.JSONDecodeError]. *)
Variable json_loads : string -> option json.
(** [str(v)] for a JSON value that is not a string. *)
Variable repr : json -> string.

Definition str (v : json) : string :=
  match v with
  | JStr s => s
  | _ => repr v
  end.

(** [rec[key]] on a parsed object. *)
Definition dict_get (key : string) (members : list (string * json)) : option json :=
  snd <$> find (fun kv => String.eqb (fst kv) key) members.

(** The shape test on [parsed_content]. *)
Definition recommendations_of (parsed_content : json) : list json :=
  match parsed_content with
  | JArr l => l
  | JObj [(key, JArr l)] => l
  | _ => []
  end.

(** The body of [for rec in recommendations]: the entry kept, if any. *)
Definition valid_recommendation (rec : json) : option Song :=
  match rec with
  | JObj members =>
      match dict_get "track" members, dict_get "artist" members with
      | Some t, Some a => Some {| track := str t; artist := str a |}
      | _, _ => None
      end
  | _ => None
  end.

Definition valid_recommendations (recommendations : list json) : list Song :=
  omap valid_recommendation recommendations.

(** What the function does with the text of a response. *)
Definition parse_response (raw : string) : list Song :=
  match json_loads raw with
  | None => []
  | Some parsed_content => valid_recommendations (recommendations_of parsed_content)
  end.

Definition adapt (msg : Message) : AdaptedMessage :=
  {| a_role := if decide (role msg = assistant) then model else role msg;
     parts := [content msg] |}.

Definition get_gemini_recommendations_google_ai
  (w : World) (attempt : nat) (api_key : option string)
  (conversation_history_raw : list Message)
  : (list Song * option string) * list Event :=
  if negb (Py.truthy_opt api_key) then (([], None), [])
  else
    let adapted_history := map adapt conversation_history_raw in
    match last adapted_history with
    | None => (([], None), [])
    | Some m =>
        if decide (a_role m = user) then
          match w_generate_content w attempt adapted_history with
          | ApiError => (([], None), [CallGenerateContent adapted_history])
          | ResponseText raw =>
              ((parse_response raw, Some raw), [CallGenerateContent adapted_history])
          end
        else (([], None), [])
    end.

(** ** Catalog resolution of a batch *)

(** The release-year block of [verify_and_filter_songs_on_spotify].  The
    [ValueError] of the first [int] is caught; the [int] of the fallback
    branch is not guarded, so its [ValueError] leaves the block. *)
Definition parse_release_year (release_date_str : option string) : Result (option Z) :=
  match release_date_str with
  | Some s =>
      if Py.truthy s then
        match Py.int (Py.before_hyphen s) with
        | Some y => Returns (Some y)
        | None =>
            if (String.length s =? 4)%nat && Py.isdigit s then
              match Py.int s with
              | Some y => Returns (Some y)
              | None => Raises
              end
            else Returns None
        end
      else Returns None
  | None => Returns None
  end.

(** From [found_track] to [song_info]; an empty artist list makes
    [found_track['artists'][0]] raise. *)
Definition song_info_of (found_track : Track) : Result SongInfo :=
  match parse_release_year (tr_release_date found_track) with
  | Raises => Raises
  | Returns release_year =>
      match tr_artists found_track with
      | [] => Raises
      | a :: _ =>
          Returns {| si_uri := tr_uri found_track;
                     si_id := tr_id found_track;
                     si_track := tr_name found_track;
                     si_artist := artist_name a;
                     si_popularity := tr_popularity found_track;
                     si_release_year := release_year |}
      end
  end.

Definition search_query (track_name artist_name : string) : string :=
  "track:" ++ track_name ++ " artist:" ++ artist_name.

(** What one suggestion contributes, given the answer to its search; every
    exception of the [try] block is caught and the suggestion dropped. *)
Definition resolve (outcome : SearchOutcome) : list SongInfo :=
  match outcome with
  | SearchRaises => []
  | SearchItems [] => []
  | SearchItems (found_track :: _) =>
      match song_info_of found_track with
      | Returns song_info => [song_info]
      | Raises => []
      end
  end.

(** [search i q] answers the query made for the [i]-th suggestion. *)
Fixpoint verify_and_filter_songs_on_spotify
  (search : nat -> string -> SearchOutcome) (i : nat)
  (recommended_songs_details : list Song) : list SongInfo * list Event :=
  match recommended_songs_details with
  | [] => ([], [])
  | song_detail :: rest =>
      let '(more, ev) := verify_and_filter_songs_on_spotify search (S i) rest in
      if negb (Py.truthy (track song_detail)) || negb (Py.truthy (artist song_detail))
      then (more, ev)
      else
        let query := search_query (track song_detail) (artist song_detail) in
        (resolve (search i query) ++ more, CallSearch query :: ev)
  end.

(** ** The sets used for de-duplication *)

Definition all_my_liked_songs_set (all_my_liked_songs_details : list Song)
  : gset (string * string) :=
  fold_left
    (fun acc song_detail =>
       let track_ := Py.lower (Py.strip (track song_detail)) in
       let artist_ := Py.lower (Py.strip (artist song_detail)) in
       if Py.truthy track_ && Py.truthy artist_
       then acc ∪ {[ (track_, artist_) ]}
       else acc)
    all_my_liked_songs_details ∅.

Definition all_recs_history_track_ids_set
  (existing_all_recs_songs_details : list PlaylistTrack) : gset string :=
  fold_left
    (fun acc song_detail =>
       if Py.truthy (pt_id song_detail) then acc ∪ {[ pt_id song_detail ]} else acc)
    existing_all_recs_songs_details ∅.

(** ** The acceptance test *)

Section Acceptance.

Variable cfg : Config.
Variable liked : gset (string * string).
Variable history_ids : gset string.

Definition is_liked (song_info : SongInfo) : bool :=
  bool_decide ((Py.lower (si_track song_info), Py.lower (si_artist song_info)) ∈ liked).

Definition is_in_all_recs_playlist_history (song_info : SongInfo) : bool :=
  bool_decide (si_id song_info ∈ history_ids).

Definition is_already_collected_this_session
  (collected_details : list SongInfo) (song_info : SongInfo) : bool :=
  existsb (fun s => String.eqb (si_id s) (si_id song_info)) collected_details.

Definition is_too_popular (song_info : SongInfo) : bool :=
  match MAX_POPULARITY_THRESHOLD cfg, si_popularity song_info with
  | Some threshold, Some popularity => (popularity >? threshold)%Z
  | _, _ => false
  end.

Definition is_too_old (song_info : SongInfo) : bool :=
  match MIN_RELEASE_YEAR cfg, si_release_year song_info with
  | Some min_year, Some release_year => (release_year <? min_year)%Z
  | _, _ => false
  end.

Definition accepted (collected_details : list SongInfo) (song_info : SongInfo) : bool :=
  negb (is_liked song_info)
  && negb (is_in_all_recs_playlist_history song_info)
  && negb (is_already_collected_this_session collected_details song_info)
  && negb (is_too_popular song_info)
  && negb (is_too_old song_info).

(** The [for song_info in enriched_spotify_songs_this_batch] loop on the two
    accumulators. *)
Fixpoint accept_batch
  (batch : list SongInfo) (uris : list string) (details : list SongInfo)
  : list string * list SongInfo :=
  match batch with
  | [] => (uris, details)
  | song_info :: rest =>
      if (TARGET_NEW_SONGS_COUNT cfg <=? List.length uris)%nat then (uris, details)
      else if accepted details song_info
           then accept_batch rest (uris ++ [si_uri song_info]) (details ++ [song_info])
           else accept_batch rest uris details
  end.

End Acceptance.

(** ** The attempt loop *)

Record LoopState := {
  collected_new_songs_for_playlist_uris : list string;
  collected_new_songs_for_playlist_details : list SongInfo;
  conversation_history : list Message;
  all_gemini_suggestions_this_session_raw_details : list Song;
  calls : list Event                    (* the calls made by the loop so far *)
}.

(** How one pass through the body of a [for] loop ends. *)
Inductive Flow :=
| Next (st : LoopState)                 (* falls through or [continue] *)
| Break (st : LoopState).

Section Loop.

Variable w : World.
Variable cfg : Config.
Variable liked : gset (string * string).
Variable history_ids : gset string.

Definition target_reached (uris : list string) : bool :=
  (TARGET_NEW_SONGS_COUNT cfg <=? List.length uris)%nat.

(** [conversation_history.append({"role": "model", ...})] under
    [if raw_model_response_str]. *)
Definition append_model_response
  (history : list Message) (raw_model_response_str : option string) : list Message :=
  match raw_model_response_str with
  | Some raw =>
      if Py.truthy raw
      then history ++ [ {| role := model; content := raw_text raw |} ]
      else history
  | None => history
  end.

(** The body of [for attempt in range(MAX_GEMINI_ATTEMPTS)]. *)
Definition attempt_body (attempt : nat) (st : LoopState) : Flow :=
  if target_reached (collected_new_songs_for_playlist_uris st) then Break st
  else
    let history1 :=
      if (0 <? attempt)%nat then
        conversation_history st ++
          [ {| role := user;
               content := follow_up_user_prompt_content
                            (all_gemini_suggestions_this_session_raw_details st) |} ]
      else conversation_history st in
    let '((gemini_batch_recs_parsed, raw_model_response_str), ev) :=
      get_gemini_recommendations_google_ai w attempt (GOOGLE_AI_API_KEY w) history1 in
    let history2 := append_model_response history1 raw_model_response_str in
    match gemini_batch_recs_parsed with
    | [] =>
        Next {| collected_new_songs_for_playlist_uris :=
                  collected_new_songs_for_playlist_uris st;
                collected_new_songs_for_playlist_details :=
                  collected_new_songs_for_playlist_details st;
                conversation_history := history2;
                all_gemini_suggestions_this_session_raw_details :=
                  all_gemini_suggestions_this_session_raw_details st;
                calls := calls st ++ ev |}
    | _ =>
        let '(enriched_spotify_songs_this_batch, ev2) :=
          verify_and_filter_songs_on_spotify (w_search w attempt) 0
            gemini_batch_recs_parsed in
        let '(uris, details) :=
          accept_batch cfg liked history_ids enriched_spotify_songs_this_batch
            (collected_new_songs_for_playlist_uris st)
            (collected_new_songs_for_playlist_details st) in
        let st' :=
          {| collected_new_songs_for_playlist_uris := uris;
             collected_new_songs_for_playlist_details := details;
             conversation_history := history2;
             all_gemini_suggestions_this_session_raw_details :=
               all_gemini_suggestions_this_session_raw_details st
               ++ gemini_batch_recs_parsed;
             calls := calls st ++ ev ++ ev2 |} in
        if target_reached uris then Break st' else Next st'
    end.

(** [for attempt in range(first, first + remaining)] *)
Fixpoint attempts_from (first remaining : nat) (st : LoopState) : LoopState :=
  match remaining with
  | 0 => st
  | S k =>
      match attempt_body first st with
      | Break st' => st'
      | Next st' => attempts_from (S first) k st'
      end
  end.

(** The state the loop starts from: empty accumulators, the history seeded
    with the first user prompt. *)
Definition initial_state (sample_liked_songs_for_gemini_prompt : list Song) : LoopState :=
  {| collected_new_songs_for_playlist_uris := [];
     collected_new_songs_for_playlist_details := [];
     conversation_history :=
       [ {| role := user;
            content := initial_user_prompt_content
                         sample_liked_songs_for_gemini_prompt |} ];
     all_gemini_suggestions_this_session_raw_details := [];
     calls := [] |}.

(** The loop with an attempt budget of [budget]. *)
Definition collection_loop_upto (budget : nat) (sample : list Song) : LoopState :=
  attempts_from 0 budget (initial_state sample).

Definition collection_loop (sample : list Song) : LoopState :=
  collection_loop_upto (MAX_GEMINI_ATTEMPTS cfg) sample.

End Loop.

(** ** Playlist writes *)

(** [range(0, stop, step)] *)
Definition range_step (stop step : nat) : list nat :=
  map (fun k => k * step) (seq 0 ((stop + step - 1) / step)).

(** [l[i:j]] for [i <= j] *)
Definition slice {A} (l : list A) (i j : nat) : list A := take (j - i) (drop i l).

(** The requests of [for i in range(0, len(track_uris), 100)]. *)
Definition add_requests (playlist_id : string) (track_uris : list string) : list Event :=
  map (fun i => CallAddItems playlist_id (slice track_uris i (i + 100)))
      (range_step (List.length track_uris) 100).

(** Issue the requests in order until one raises; [raises k] tells whether
    the [k]-th does. *)
Fixpoint issue (raises : nat -> bool) (k : nat) (requests : list Event)
  : bool * list Event :=
  match requests with
  | [] => (true, [])
  | r :: rest =>
      if raises k then (false, [r])
      else let '(ok, ev) := issue raises (S k) rest in (ok, r :: ev)
  end.

Definition update_playlist_items
  (raises : nat -> bool) (playlist_id : option string)
  (track_uris : list string) (replace : bool) : bool * list Event :=
  match playlist_id with
  | None => (false, [])
  | Some pid =>
      if negb (Py.truthy pid) then (false, [])
      else
        match track_uris with
        | [] =>
            if replace then issue raises 0 [CallReplaceItems pid []]
            else (true, [])
        | _ =>
            if replace then
              if (List.length track_uris <=? 100)%nat
              then issue raises 0 [CallReplaceItems pid track_uris]
              else issue raises 0 (CallReplaceItems pid [] :: add_requests pid track_uris)
            else issue raises 0 (add_requests pid track_uris)
        end
  end.

(** ** The script *)

(** How the process ends. *)
Inductive Termination :=
| Exit (code : Z)                       (* [exit(code)]; [exit()] is code 0 *)
| Uncaught                              (* an exception nobody catches *)
| ScriptFinished.                       (* the last statement was reached *)

(** A step of the script: the calls it made, and either the value it
    produced or the way it ended the process. *)
Definition Script (A : Type) : Type := (Termination + A) * list Event.

Definition ret {A} (a : A) : Script A := (inr a, []).
Definition stop {A} (t : Termination) : Script A := (inl t, []).
Definition bind {A B} (m : Script A) (k : A -> Script B) : Script B :=
  match m with
  | (inl t, ev) => (inl t, ev)
  | (inr a, ev) => let '(r, ev') := k a in (r, ev ++ ev')
  end.
(** A call that cannot end the process. *)
Definition call {A} (m : A * list Event) : Script A := (inr (fst m), snd m).
(** A call outside any [try]: raising ends the process. *)
Definition call_unguarded {A} (m : Result A * list Event) : Script A :=
  match fst m with
  | Returns a => (inr a, snd m)
  | Raises => (inl Uncaught, snd m)
  end.

Notation "'do' x <- m ; k" := (bind m (fun x => k))
  (at level 10, x pattern, m at level 100, k at level 200).

Record Prepared := {
  user_id : string;
  all_my_liked_songs_details : list Song;
  all_recs_playlist_id : option string;
  existing_all_recs_songs_details : list PlaylistTrack
}.

(** The required configuration values are all present and non-empty. *)
Definition config_present (w : World) : bool :=
  Py.truthy_opt (SPOTIFY_CLIENT_ID w) && Py.truthy_opt (SPOTIFY_CLIENT_SECRET w)
  && Py.truthy_opt (SPOTIFY_REDIRECT_URI w) && Py.truthy_opt (GOOGLE_AI_API_KEY w).

(** From the configuration check to the start of the attempt loop.
    [get_spotify_client] builds the client object without a call, and the
    object is never false. *)
Definition startup (w : World) : Script Prepared :=
  if negb (config_present w) then stop (Exit 1)
  else
    do uid <- call_unguarded
                (match w_me w with Some u => Returns u | None => Raises end, [CallMe]);
    do details <- call (get_all_liked_songs_details w);
    match details with
    | [] => stop (Exit 0)
    | _ =>
        do pid <- call_unguarded (get_or_create_playlist_id w 0 uid ALL_RECS_PLAYLIST_NAME);
        do existing <- call (get_playlist_tracks_simplified w pid);
        ret {| user_id := uid;
               all_my_liked_songs_details := details;
               all_recs_playlist_id := pid;
               existing_all_recs_songs_details := existing |}
    end.

(** The attempt loop as the script runs it. *)
Definition run_loop (w : World) (cfg : Config) (p : Prepared) : LoopState :=
  collection_loop w cfg
    (all_my_liked_songs_set (all_my_liked_songs_details p))
    (all_recs_history_track_ids_set (existing_all_recs_songs_details p))
    (take (MAX_SONGS_TO_GEMINI_PROMPT cfg)
          (w_shuffle w (all_my_liked_songs_details p))).

(** One destination: update the playlist and, on success, read its URL. *)
Definition sync_step
  (w : World) (n : nat) (playlist_id : option string)
  (track_uris : list string) (replace : bool) : Script unit :=
  do ok <- call (update_playlist_items (w_write_raises w n) playlist_id track_uris replace);
  if ok : bool then
    match playlist_id with
    | Some pid =>
        call_unguarded
          (match w_playlist_url w pid with Some _ => Returns tt | None => Raises end,
           [CallPlaylist pid])
    | None => ret tt
    end
  else ret tt.

(** Everything after the loop. *)
Definition playlist_sync
  (w : World) (cfg : Config) (p : Prepared) (st : LoopState) : Script unit :=
  let final_uris_for_new_playlist :=
    take (TARGET_NEW_SONGS_COUNT cfg) (collected_new_songs_for_playlist_uris st) in
  let final_details_for_all_recs_update :=
    take (TARGET_NEW_SONGS_COUNT cfg) (collected_new_songs_for_playlist_details st) in
  match final_uris_for_new_playlist with
  | [] => stop (Exit 0)
  | _ =>
      do new_playlist_id <-
        call_unguarded (get_or_create_playlist_id w 1 (user_id p) NEW_PLAYLIST_NAME);
      do _ <- (if Py.truthy_opt new_playlist_id
               then sync_step w 0 new_playlist_id final_uris_for_new_playlist true
               else ret tt);
      do _ <- (match final_details_for_all_recs_update with
               | [] => ret tt
               | _ =>
                   if Py.truthy_opt (all_recs_playlist_id p)
                   then sync_step w 1 (all_recs_playlist_id p)
                          (map si_uri final_details_for_all_recs_update) false
                   else ret tt
               end);
      stop ScriptFinished
  end.

Definition main (w : World) (cfg : Config) : Termination * list Event :=
  let '(r, ev) :=
    (do p <- startup w;
     let st := run_loop w cfg p in
     do _ <- call (tt, calls st);
     playlist_sync w cfg p st) in
  (match r with inl t => t | inr _ => ScriptFinished end, ev).

(** The entries collected by the run, when the loop is reached. *)
Definition collected_set (w : World) (cfg : Config) : option (list SongInfo) :=
  match fst (startup w) with
  | inr p => Some (collected_new_songs_for_playlist_details (run_loop w cfg p))
  | inl _ => None
  end.

End Program.

(** ** Why a candidate is skipped *)

(** An entry of the [reasons] list of the acceptance loop; the two
    formatted reasons keep the numbers the f-string prints. *)
Inductive Reason :=
| reason_is_liked
| reason_in_history_playlist
| reason_already_collected
| reason_too_popular (popularity : option Z) (threshold : option Z)
| reason_too_old (release_year : option Z) (min_year : option Z).

(** The [reasons] list built in the [else] branch of the acceptance test. *)
Definition reasons
  (cfg : Config) (liked : gset (string * string)) (history_ids : gset string)
  (collected_details : list SongInfo) (song_info : SongInfo) : list Reason :=
  (if is_liked liked song_info then [reason_is_liked] else [])
  ++ (if is_in_all_recs_playlist_history history_ids song_info
      then [reason_in_history_playlist] else [])
  ++ (if is_already_collected_this_session collected_details song_info
      then [reason_already_collected] else [])
  ++ (if is_too_popular cfg song_info
      then [reason_too_popular (si_popularity song_info) (MAX_POPULARITY_THRESHOLD cfg)]
      else [])
  ++ (if is_too_old cfg song_info
      then [reason_too_old (si_release_year song_info) (MIN_RELEASE_YEAR cfg)]
      else []).

(** * What the claims speak about *)

Definition popularity_ok (cfg : Config) (e : SongInfo) : Prop :=
  match MAX_POPULARITY_THRESHOLD cfg, si_popularity e with
  | Some maximum, Some popularity => (popularity <= maximum)%Z
  | _, _ => True
  end.

Definition release_year_ok (cfg : Config) (e : SongInfo) : Prop :=
  match MIN_RELEASE_YEAR cfg, si_release_year e with
  | Some minimum, Some year => (minimum <= year)%Z
  | _, _ => True
  end.

Definition flow_state (f : Flow) : LoopState :=
  match f with Next st => st | Break st => st end.

(** The two accumulators of the loop describe one sequence of entries that
    pass the filters, with distinct catalog IDs, no longer than the target. *)
Record collected_ok (cfg : Config) (history_ids : gset string)
  (uris : list string) (details : list SongInfo) : Prop := {
  ok_uris : uris = map si_uri details;
  ok_entries :
    Forall (fun e => (si_id e ∉ history_ids)
                     ∧ popularity_ok cfg e ∧ release_year_ok cfg e) details;
  ok_distinct : NoDup (map si_id details);
  ok_size : List.length details <= TARGET_NEW_SONGS_COUNT cfg
}.

(** The invariant of the attempt loop. *)
Definition state_ok (cfg : Config) (history_ids : gset string) (st : LoopState) : Prop :=
  collected_ok cfg history_ids
    (collected_new_songs_for_playlist_uris st)
    (collected_new_songs_for_playlist_details st).

(** ** Counting oracle calls *)

Definition is_oracle_call (e : Event) : bool :=
  match e with CallGenerateContent _ => true | _ => false end.

Definition oracle_calls (ev : list Event) : nat :=
  List.length (List.filter is_oracle_call ev).

Definition ends_with_user (history : list Message) : Prop :=
  exists m, last history = Some m /\ role m = user.

(** The history the body sends at [attempt]. *)
Definition history_sent (attempt : nat) (st : LoopState) : list Message :=
  if (0 <? attempt)%nat then
    conversation_history st ++
      [ {| role := user;
           content := follow_up_user_prompt_content
                        (all_gemini_suggestions_this_session_raw_details st) |} ]
  else conversation_history st.


(** The oracle's answer carries no valid suggestion: the call failed, the
    text is not JSON, or no entry of it is kept. *)
Definition no_suggestions
  (json_loads : string -> option json) (repr : json -> string)
  (o : OracleOutcome) : Prop :=
  match o with
  | ApiError => True
  | ResponseText raw => parse_response json_loads repr raw = []
  end.

(** The state after an attempt that collected nothing: the history and the
    calls have grown, the accumulators are as before. *)
Definition after_empty_attempt
  (st : LoopState) (history : list Message) (ev : list Event) : LoopState :=
  {| collected_new_songs_for_playlist_uris := collected_new_songs_for_playlist_uris st;
     collected_new_songs_for_playlist_details := collected_new_songs_for_playlist_details st;
     conversation_history := history;
     all_gemini_suggestions_this_session_raw_details :=
       all_gemini_suggestions_this_session_raw_details st;
     calls := calls st ++ ev |}.

(** The state after an attempt with the suggestions [recs]. *)
Definition after_batch
  (w : World) (cfg : Config)
  (liked : gset (string * string)) (history_ids : gset string)
  (attempt : nat) (st : LoopState)
  (history : list Message) (ev : list Event) (recs : list Song) : LoopState :=
  let resolved := verify_and_filter_songs_on_spotify (w_search w attempt) 0 recs in
  let kept :=
    accept_batch cfg liked history_ids (fst resolved)
      (collected_new_songs_for_playlist_uris st)
      (collected_new_songs_for_playlist_details st) in
  {| collected_new_songs_for_playlist_uris := fst kept;
     collected_new_songs_for_playlist_details := snd kept;
     conversation_history := history;
     all_gemini_suggestions_this_session_raw_details :=
       all_gemini_suggestions_this_session_raw_details st ++ recs;
     calls := calls st ++ ev ++ snd resolved |}.

(** The pair the acceptance test looks up in the liked-songs set. *)
Definition looked_up (e : SongInfo) : string * string :=
  (Py.lower (si_track e), Py.lower (si_artist e)).

(** The pair as the liked-songs set stores it: trimmed and lower-cased. *)
Definition normalized (e : SongInfo) : string * string :=
  (Py.lower (Py.strip (si_track e)), Py.lower (Py.strip (si_artist e))).

(** ** Shapes of an oracle answer *)

(** An entry that is an object with both a "track" and an "artist" key. *)
Definition has_track_and_artist (rec : json) : Prop :=
  exists members,
    rec = JObj members
    /\ "track" ∈ map fst members /\ "artist" ∈ map fst members.

(** The two shapes that carry a list: a bare array, or an object with
    exactly one key whose value is an array. *)
Definition wraps_list (parsed_content : json) (l : list json) : Prop :=
  parsed_content = JArr l \/ exists key, parsed_content = JObj [(key, JArr l)].

(** ** Release dates *)

Fixpoint decimal_from (acc : Z) (s : string) : Z :=
  match s with
  | EmptyString => acc
  | String c r => decimal_from (10 * acc + Py.digit_val c)%Z r
  end.

(** The number a string of decimal digits denotes. *)
Definition decimal (s : string) : Z := decimal_from 0%Z s.

(** The catalog's release dates: a 4-digit year, alone or followed by a
    hyphen and the rest of the date (YYYY, YYYY-MM, YYYY-MM-DD). *)
Definition catalog_date (date year : string) : Prop :=
  String.length year = 4
  /\ Py.all_chars Py.is_ascii_digit year = true
  /\ (date = year \/ exists rest, date = year +:+ String "-" rest).

(** Every character is below U+0080. *)
Definition is_ascii (s : string) : bool :=
  Py.all_chars (fun c => (Py.code c <? 128)%N) s.

(** ** Write requests *)

(** The number of track URIs a request carries. *)
Definition request_size (e : Event) : nat :=
  match e with
  | CallReplaceItems _ track_uris => List.length track_uris
  | CallAddItems _ track_uris => List.length track_uris
  | _ => 0
  end.

(** The URIs a sequence of requests leaves in a playlist that held
    [before]. *)
Definition apply_request (before : list string) (e : Event) : list string :=
  match e with
  | CallReplaceItems _ track_uris => track_uris
  | CallAddItems _ track_uris => before ++ track_uris
  | _ => before
  end.

(** A request that changes a playlist. *)
Definition is_write (e : Event) : bool :=
  match e with
  | CallReplaceItems _ _ | CallAddItems _ _ => true
  | _ => false
  end.

Definition no_write (ev : list Event) : Prop := Forall (fun e => is_write e = false) ev.

(** ** Secondary artists *)

(** The same catalog answers with every artist but the first removed. *)
Definition primary_only (artists : list Artist) : list Artist := take 1 artists.

Definition item_primary (item : option ItemTrack) : option ItemTrack :=
  (fun t => {| it_id := it_id t; it_name := it_name t;
               it_artists := primary_only (it_artists t) |}) <$> item.

Definition page_primary (p : Page) : Page :=
  match p with
  | PageRaises => PageRaises
  | PageOf items next => PageOf (map item_primary items) next
  end.

Definition track_primary (t : Track) : Track :=
  {| tr_uri := tr_uri t; tr_id := tr_id t; tr_name := tr_name t;
     tr_artists := primary_only (tr_artists t);
     tr_popularity := tr_popularity t; tr_release_date := tr_release_date t |}.

Definition search_primary (o : SearchOutcome) : SearchOutcome :=
  match o with
  | SearchRaises => SearchRaises
  | SearchItems items => SearchItems (map track_primary items)
  end.

Definition world_primary (w : World) : World :=
  {| SPOTIFY_CLIENT_ID := SPOTIFY_CLIENT_ID w;
     SPOTIFY_CLIENT_SECRET := SPOTIFY_CLIENT_SECRET w;
     SPOTIFY_REDIRECT_URI := SPOTIFY_REDIRECT_URI w;
     GOOGLE_AI_API_KEY := GOOGLE_AI_API_KEY w;
     w_me := w_me w;
     w_saved_tracks := map page_primary (w_saved_tracks w);
     w_user_playlists := w_user_playlists w;
     w_playlist_create := w_playlist_create w;
     w_playlist_items := fun playlist_id => map page_primary (w_playlist_items w playlist_id);
     w_shuffle := w_shuffle w;
     w_generate_content := w_generate_content w;
     w_search := fun attempt i q => search_primary (w_search w attempt i q);
     w_write_raises := w_write_raises w;
     w_playlist_url := w_playlist_url w |}.

(** ** Conversation histories *)

(** No two neighbouring messages have the same role. *)
Fixpoint alternates (roles : list Role) : bool :=
  match roles with
  | r1 :: ((r2 :: _) as rest) => negb (bool_decide (r1 = r2)) && alternates rest
  | _ => true
  end.

(** The histories sent to the oracle, in order. *)
Definition histories_sent (ev : list Event) : list (list AdaptedMessage) :=
  omap (fun e => match e with CallGenerateContent h => Some h | _ => None end) ev.

(** ** Example runs *)

Module Examples.

Definition dq : string := String (ascii_of_nat 34) EmptyString.
Definition quoted (s : string) : string := dq +:+ s +:+ dq.

(** The text of a JSON array with one suggestion. *)
Definition one_suggestion_text (t a : string) : string :=
  "[{" +:+ quoted "track" +:+ ": " +:+ quoted t +:+ ", "
       +:+ quoted "artist" +:+ ": " +:+ quoted a +:+ "}]".

Definition one_suggestion (t a : string) : json :=
  JArr [JObj [("track", JStr t); ("artist", JStr a)]].

Definition gold_text : string := one_suggestion_text "Gold" "Artist B".
Definition blue_text : string := one_suggestion_text "Blue" "Artist A".
Definition prose_text : string := "Here are some songs you may enjoy:".

(** [json.loads] on the texts of the examples. *)
Definition json_loads (s : string) : option json :=
  if String.eqb s gold_text then Some (one_suggestion "Gold" "Artist B")
  else if String.eqb s blue_text then Some (one_suggestion "Blue" "Artist A")
  else None.

(** No example holds a JSON value other than a string under "track" or
    "artist". *)
Definition repr (v : json) : string := EmptyString.

Definition gold_track : Track :=
  {| tr_uri := "spotify:track:gold"; tr_id := "gold"; tr_name := "Gold";
     tr_artists := [ {| artist_name := "Artist B" |}; {| artist_name := "Guest" |} ];
     tr_popularity := Some 10%Z; tr_release_date := Some "2023-05-01" |}.

(** A catalog title with a trailing blank. *)
Definition blue_track : Track :=
  {| tr_uri := "spotify:track:blue"; tr_id := "blue"; tr_name := "Blue ";
     tr_artists := [ {| artist_name := "Artist A" |} ];
     tr_popularity := Some 10%Z; tr_release_date := Some "2023" |}.

Definition saved (name artist_ : string) : option ItemTrack :=
  Some {| it_id := Some name; it_name := Some name;
          it_artists := [ {| artist_name := artist_ |} ] |}.

(** A world with every credential set, one page of saved tracks, no
    playlist yet, and the given oracle and search. *)
Definition world
  (saved_items : list (option ItemTrack))
  (oracle : nat -> OracleOutcome) (search : string -> SearchOutcome) : World :=
  {| SPOTIFY_CLIENT_ID := Some "client";
     SPOTIFY_CLIENT_SECRET := Some "secret";
     SPOTIFY_REDIRECT_URI := Some "http://localhost:8888/callback";
     GOOGLE_AI_API_KEY := Some "key";
     w_me := Some "me";
     w_saved_tracks := [PageOf saved_items false];
     w_user_playlists := fun _ => Some [ [] ];
     w_playlist_create := fun name => Some ("id of " +:+ name);
     w_playlist_items := fun _ => [];
     w_shuffle := fun l => l;
     w_generate_content := fun attempt _ => oracle attempt;
     w_search := fun _ _ q => search q;
     w_write_raises := fun _ _ => false;
     w_playlist_url := fun _ => Some "https://open.spotify.com/playlist" |}.

Definition cfg_5_1 : Config :=
  {| TARGET_NEW_SONGS_COUNT := 1;
     MAX_GEMINI_ATTEMPTS := 5;
     MAX_SONGS_TO_GEMINI_PROMPT := 150;
     MAX_POPULARITY_THRESHOLD := Some 60%Z;
     MIN_RELEASE_YEAR := Some 2021%Z |}.

(** Attempt 1 answers in prose, attempt 2 with one suggestion that the
    catalog resolves to a fresh track. *)
Definition prose_then_gold : World :=
  world [saved "Red" "Artist C"]
        (fun attempt => match attempt with
                        | 0 => ResponseText prose_text
                        | _ => ResponseText gold_text
                        end)
        (fun _ => SearchItems [gold_track]).

(** The first oracle call fails, the second succeeds. *)
Definition error_then_gold : World :=
  world [saved "Red" "Artist C"]
        (fun attempt => match attempt with
                        | 0 => ApiError
                        | _ => ResponseText gold_text
                        end)
        (fun _ => SearchItems [gold_track]).

(** The user has saved the track titled "Blue " (trailing blank); the
    oracle suggests it and the catalog resolves it to the same track. *)
Definition liked_with_blank : World :=
  world [saved "Blue " "Artist A"]
        (fun _ => ResponseText blue_text)
        (fun _ => SearchItems [blue_track]).

(** The oracle never answers with JSON. *)
Definition only_prose : World :=
  world [saved "Red" "Artist C"]
        (fun _ => ResponseText prose_text)
        (fun _ => SearchItems [gold_track]).

(** The oracle's API key is not set. *)
Definition no_api_key : World :=
  {| SPOTIFY_CLIENT_ID := Some "client";
     SPOTIFY_CLIENT_SECRET := Some "secret";
     SPOTIFY_REDIRECT_URI := Some "http://localhost:8888/callback";
     GOOGLE_AI_API_KEY := None;
     w_me := w_me only_prose;
     w_saved_tracks := w_saved_tracks only_prose;
     w_user_playlists := w_user_playlists only_prose;
     w_playlist_create := w_playlist_create only_prose;
     w_playlist_items := w_playlist_items only_prose;
     w_shuffle := w_shuffle only_prose;
     w_generate_content := w_generate_content only_prose;
     w_search := w_search only_prose;
     w_write_raises := w_write_raises only_prose;
     w_playlist_url := w_playlist_url only_prose |}.

(** [prose_then_gold] where creating the playlist named [missing] raises. *)
Definition cannot_create (missing : string) : World :=
  {| SPOTIFY_CLIENT_ID := SPOTIFY_CLIENT_ID prose_then_gold;
     SPOTIFY_CLIENT_SECRET := SPOTIFY_CLIENT_SECRET prose_then_gold;
     SPOTIFY_REDIRECT_URI := SPOTIFY_REDIRECT_URI prose_then_gold;
     GOOGLE_AI_API_KEY := GOOGLE_AI_API_KEY prose_then_gold;
     w_me := w_me prose_then_gold;
     w_saved_tracks := w_saved_tracks prose_then_gold;
     w_user_playlists := w_user_playlists prose_then_gold;
     w_playlist_create :=
       fun name => if String.eqb name missing then None
                   else w_playlist_create prose_then_gold name;
     w_playlist_items := w_playlist_items prose_then_gold;
     w_shuffle := w_shuffle prose_then_gold;
     w_generate_content := w_generate_content prose_then_gold;
     w_search := w_search prose_then_gold;
     w_write_raises := w_write_raises prose_then_gold;
     w_playlist_url := w_playlist_url prose_then_gold |}.

(** What [startup] hands to the loop in [cannot_create missing]. *)
Definition prepared (all_recs : option string) : Prepared :=
  {| user_id := "me";
     all_my_liked_songs_details := [ {| track := "Red"; artist := "Artist C" |} ];
     all_recs_playlist_id := all_recs;
     existing_all_recs_songs_details := [] |}.

Definition undated_track : Track :=
  {| tr_uri := "spotify:track:undated"; tr_id := "undated"; tr_name := "Undated";
     tr_artists := [ {| artist_name := "Artist D" |} ];
     tr_popularity := None; tr_release_date := None |}.

Definition odd_date_track : Track :=
  {| tr_uri := "spotify:track:odd"; tr_id := "odd"; tr_name := "Odd";
     tr_artists := [ {| artist_name := "Artist E" |} ];
     tr_popularity := None; tr_release_date := Some "unknown" |}.

Definition duet_item : option ItemTrack :=
  Some {| it_id := Some "duet"; it_name := Some "Duet";
          it_artists := [ {| artist_name := "Lead" |}; {| artist_name := "Guest" |} ] |}.

End Examples.

(** * Further notions *)

(** ** Playlists as the requests leave them *)

(** The content of a playlist that held [before] after the requests. *)
Definition playlist_after (before : list string) (ev : list Event) : list string :=
  fold_left apply_request ev before.

(** The playlist a write request is addressed to. *)
Definition request_playlist (e : Event) : option string :=
  match e with
  | CallReplaceItems playlist_id _ | CallAddItems playlist_id _ => Some playlist_id
  | _ => None
  end.

(** ** Paginated reads *)

(** A page that ends the read: the call raised, the page is empty, or it
    has no "next" link. *)
Definition stops (p : Page) : bool :=
  match p with
  | PageRaises => true
  | PageOf [] _ => true
  | PageOf _ next => negb next
  end.

Definition page_liked_songs (p : Page) : list Song :=
  match p with
  | PageRaises => []
  | PageOf items _ => List.concat (map liked_song_of_item items)
  end.

Definition page_playlist_tracks (p : Page) : list PlaylistTrack :=
  match p with
  | PageRaises => []
  | PageOf items _ => List.concat (map playlist_track_of_item items)
  end.

(** The offsets [start], [start + step], ... of [n] successive reads. *)
Definition offsets (start step n : nat) : list nat :=
  map (fun k => start + step * k) (seq 0 n).

(** ** Playlist lookup *)

Definition matches (playlist_name user_id : string) (pl : PlaylistObj) : Prop :=
  pl_name pl = playlist_name /\ pl_owner pl = user_id.

Definition is_create (e : Event) : bool :=
  match e with CallPlaylistCreate _ => true | _ => false end.

Definition is_search (e : Event) : bool :=
  match e with CallSearch _ => true | _ => false end.

(** ** Conversation shape *)

(** No two neighbouring messages both have the model role. *)
Fixpoint no_adjacent_models (roles : list Role) : bool :=
  match roles with
  | r1 :: ((r2 :: _) as rest) =>
      negb (bool_decide (r1 = model) && bool_decide (r2 = model))
      && no_adjacent_models rest
  | _ => true
  end.

(** The filters of the acceptance test that do not look at what has been
    collected. *)
Definition passes_filters
  (cfg : Config) (liked : gset (string * string)) (history_ids : gset string)
  (e : SongInfo) : bool :=
  negb (is_liked liked e)
  && negb (is_in_all_recs_playlist_history history_ids e)
  && negb (is_too_popular cfg e)
  && negb (is_too_old cfg e).

(** What a pass leaves of the state it started from. *)
Definition extends (st st' : LoopState) : Prop :=
  collected_new_songs_for_playlist_uris st
    `prefix_of` collected_new_songs_for_playlist_uris st'
  /\ collected_new_songs_for_playlist_details st
       `prefix_of` collected_new_songs_for_playlist_details st'
  /\ conversation_history st `prefix_of` conversation_history st'
  /\ all_gemini_suggestions_this_session_raw_details st
       `prefix_of` all_gemini_suggestions_this_session_raw_details st'
  /\ calls st `prefix_of` calls st'.

(** The shape every conversation history of the loop has: it opens with
    the initial user prompt, no message has the role "assistant", a model
    message carries a non-empty answer text, and no two model messages are
    neighbours. *)
Definition history_shape (sample : list Song) (h : list Message) : Prop :=
  hd_error h = Some {| role := user; content := initial_user_prompt_content sample |}
  /\ no_adjacent_models (map role h) = true
  /\ Forall (fun m => role m <> assistant) h
  /\ Forall (fun m => role m = model ->
                      exists raw, content m = raw_text raw /\ raw <> EmptyString) h.

(** The content of the playlist [playlist_id] that held [before], after the
    requests of [ev] addressed to it. *)
Definition playlist_content
  (playlist_id : string) (before : list string) (ev : list Event) : list string :=
  playlist_after before
    (List.filter (fun e => bool_decide (request_playlist e = Some playlist_id)) ev).

(** ** Further example data *)

Module MoreExamples.

Definition gold_info : SongInfo :=
  {| si_uri := "spotify:track:gold"; si_id := "gold"; si_track := "Gold";
     si_artist := "Artist B"; si_popularity := Some 10%Z;
     si_release_year := Some 2023%Z |}.

(** A candidate that is too popular for [Examples.cfg_5_1]. *)
Definition hit_info : SongInfo :=
  {| si_uri := "spotify:track:hit"; si_id := "hit"; si_track := "Hit";
     si_artist := "Artist F"; si_popularity := Some 80%Z;
     si_release_year := Some 2023%Z |}.

(** The liked song "Blue" in capitals, as the catalog might return it. *)
Definition shouted_blue : SongInfo :=
  {| si_uri := "spotify:track:blue"; si_id := "blue"; si_track := "BLUE";
     si_artist := "ARTIST A"; si_popularity := Some 10%Z;
     si_release_year := Some 2023%Z |}.

(** 250 track URIs: three requests of 100, 100 and 50. *)
Definition many_uris : list string := repeat "spotify:track:x" 250.

(** The second request raises. *)
Definition second_raises (k : nat) : bool := Nat.eqb k 1.

(** The second page of saved tracks cannot be read; a third exists. *)
Definition pages_with_error : list Page :=
  [ PageOf [Examples.saved "Red" "Artist C"] true;
    PageRaises;
    PageOf [Examples.saved "Green" "Artist G"] false ].

(** A user without any saved track. *)
Definition no_liked_songs : World :=
  Examples.world [] (fun _ => ApiError) (fun _ => SearchRaises).

Definition cfg_target_zero : Config :=
  {| TARGET_NEW_SONGS_COUNT := 0;
     MAX_GEMINI_ATTEMPTS := 5;
     MAX_SONGS_TO_GEMINI_PROMPT := 150;
     MAX_POPULARITY_THRESHOLD := Some 60%Z;
     MIN_RELEASE_YEAR := Some 2021%Z |}.

End MoreExamples.

(** * Properties *)

(** ** The text primitives on examples *)

Example lower_ex : Py.lower "Blue Monday" = "blue monday".
Proof. reflexivity. Qed.

Example strip_ex : Py.strip "  a b " = "a b".
Proof. reflexivity. Qed.

Example int_ex : Py.int " +20_21 " = Some 2021%Z.
Proof. reflexivity. Qed.

Example int_bad_ex : Py.int "20__21" = None.
Proof. reflexivity. Qed.

Section LoopProperties.

Context (json_loads : string -> option json) (repr : json -> string).
Context (w : World) (cfg : Config).
Context (liked : gset (string * string)) (history_ids : gset string).

Local Abbreviation body := (attempt_body json_loads repr w cfg liked history_ids).
Local Abbreviation loop_from := (attempts_from json_loads repr w cfg liked history_ids).
Local Abbreviation loop_upto :=
  (collection_loop_upto json_loads repr w cfg liked history_ids).

(** A property kept by every pass through the loop body holds when the loop
    is left. *)
Lemma attempts_from_invariant (P : LoopState -> Prop) :
  (forall attempt st, P st -> P (flow_state (body attempt st))) ->
  forall remaining first st, P st -> P (loop_from first remaining st).
Proof.
  intros Hbody remaining.
  induction remaining as [|k IH]; intros first st Hst; simpl; [assumption|].
  specialize (Hbody first st Hst).
  destruct (body first st) as [st'|st']; simpl in Hbody; auto.
Qed.

Lemma not_already_collected details e :
  is_already_collected_this_session details e = false ->
  si_id e ∉ map si_id details.
Proof.
  unfold is_already_collected_this_session.
  induction details as [|d ds IH]; simpl; intros H.
  - apply not_elem_of_nil.
  - apply orb_false_iff in H as [Hd Hds].
    apply not_elem_of_cons; split; [|auto].
    intros Heq. rewrite Heq, String.eqb_refl in Hd. discriminate.
Qed.

Lemma accepted_entry details e :
  accepted cfg liked history_ids details e = true ->
  ((Py.lower (si_track e), Py.lower (si_artist e)) ∉ liked)
  ∧ (si_id e ∉ history_ids)
  ∧ (si_id e ∉ map si_id details)
  ∧ popularity_ok cfg e ∧ release_year_ok cfg e.
Proof.
  unfold accepted, is_liked, is_in_all_recs_playlist_history.
  rewrite !andb_true_iff, !negb_true_iff.
  intros [[[[Hl Hh] Hc] Hp] Hy].
  apply bool_decide_eq_false in Hl, Hh.
  repeat split; auto using not_already_collected.
  - unfold is_too_popular in Hp. unfold popularity_ok.
    destruct (MAX_POPULARITY_THRESHOLD cfg), (si_popularity e); auto. lia.
  - unfold is_too_old in Hy. unfold release_year_ok.
    destruct (MIN_RELEASE_YEAR cfg), (si_release_year e); auto. lia.
Qed.

Lemma accept_batch_ok batch : forall uris details,
  collected_ok cfg history_ids uris details ->
  collected_ok cfg history_ids
    (fst (accept_batch cfg liked history_ids batch uris details))
    (snd (accept_batch cfg liked history_ids batch uris details)).
Proof.
  induction batch as [|e rest IH]; intros uris details Hok; simpl; [assumption|].
  destruct (Nat.leb_spec (TARGET_NEW_SONGS_COUNT cfg) (List.length uris)) as [Hfull|Hroom];
    [assumption|].
  destruct (accepted cfg liked history_ids details e) eqn:Hacc; [|auto].
  apply IH. destruct Hok as [Hu He Hd Hs].
  apply accepted_entry in Hacc as (_ & Hh & Hc & Hp & Hy).
  split.
  - rewrite Hu, map_app. reflexivity.
  - apply Forall_app; split; [assumption|]. repeat constructor; assumption.
  - rewrite map_app. apply NoDup_app. repeat split; [assumption| |].
    + intros x Hx Hx'. apply list_elem_of_singleton in Hx'. subst x. contradiction.
    + apply NoDup_singleton.
  - rewrite length_app. simpl.
    rewrite Hu, length_map in Hroom. lia.
Qed.

Lemma attempt_body_ok attempt st :
  state_ok cfg history_ids st -> state_ok cfg history_ids (flow_state (body attempt st)).
Proof.
  intros Hok. unfold attempt_body.
  destruct (target_reached _ _); [assumption|].
  destruct (get_gemini_recommendations_google_ai _ _ _ _ _ _) as [[recs raw] ev].
  destruct recs as [|r recs]; [assumption|].
  destruct (verify_and_filter_songs_on_spotify _ _ _) as [batch ev2].
  pose proof (accept_batch_ok batch _ _ Hok) as Hb.
  destruct (accept_batch _ _ _ _ _ _) as [uris details]; simpl in Hb.
  destruct (target_reached _ _); assumption.
Qed.

Lemma initial_state_ok sample : state_ok cfg history_ids (initial_state sample).
Proof.
  split; simpl; [reflexivity|constructor|constructor|lia].
Qed.

Lemma collection_loop_upto_ok budget sample :
  state_ok cfg history_ids (loop_upto budget sample).
Proof.
  unfold collection_loop_upto.
  apply attempts_from_invariant; [apply attempt_body_ok|apply initial_state_ok].
Qed.

End LoopProperties.

Section OracleCalls.

Context (json_loads : string -> option json) (repr : json -> string).
Context (w : World) (cfg : Config).
Context (liked : gset (string * string)) (history_ids : gset string).

Local Abbreviation body := (attempt_body json_loads repr w cfg liked history_ids).
Local Abbreviation loop_from := (attempts_from json_loads repr w cfg liked history_ids).
Local Abbreviation gemini := (get_gemini_recommendations_google_ai json_loads repr w).

Lemma oracle_calls_app a b : oracle_calls (a ++ b) = oracle_calls a + oracle_calls b.
Proof. unfold oracle_calls. rewrite List.filter_app, length_app. reflexivity. Qed.

Lemma verify_no_oracle_call search recs : forall i,
  oracle_calls (snd (verify_and_filter_songs_on_spotify search i recs)) = 0.
Proof.
  induction recs as [|r recs IH]; intros i; simpl; [reflexivity|].
  specialize (IH (S i)).
  destruct (verify_and_filter_songs_on_spotify search (S i) recs) as [more ev].
  destruct (negb _ || negb _); simpl in *; assumption.
Qed.

Lemma ends_with_user_snoc history c :
  ends_with_user (history ++ [ {| role := user; content := c |} ]).
Proof. eexists. rewrite last_snoc. split; reflexivity. Qed.

Lemma last_adapted history m :
  last history = Some m -> last (map (adapt) history) = Some (adapt m).
Proof.
  induction history as [|x [|y history] IH]; simpl in *; intros H.
  - discriminate.
  - congruence.
  - auto.
Qed.

(** With the API key present and a history that ends in a user turn, the
    function sends exactly one request, carrying the whole history, and
    returns what the parser makes of the answer. *)
Lemma gemini_result attempt history :
  Py.truthy_opt (GOOGLE_AI_API_KEY w) = true ->
  ends_with_user history ->
  gemini attempt (GOOGLE_AI_API_KEY w) history
  = (match w_generate_content w attempt (map adapt history) with
     | ApiError => ([], None)
     | ResponseText raw => (parse_response json_loads repr raw, Some raw)
     end,
     [CallGenerateContent (map adapt history)]).
Proof.
  intros Hkey (m & Hlast & Hrole).
  unfold get_gemini_recommendations_google_ai. rewrite Hkey. simpl.
  rewrite (last_adapted _ _ Hlast).
  unfold adapt at 1. simpl. rewrite Hrole. simpl.
  destruct (w_generate_content w attempt _); reflexivity.
Qed.

Lemma gemini_sends attempt history :
  Py.truthy_opt (GOOGLE_AI_API_KEY w) = true ->
  ends_with_user history ->
  snd (gemini attempt (GOOGLE_AI_API_KEY w) history)
  = [CallGenerateContent (map adapt history)].
Proof. intros Hkey Hh. rewrite gemini_result by assumption. reflexivity. Qed.

Lemma history_sent_ends_with_user attempt st :
  (attempt = 0 -> ends_with_user (conversation_history st)) ->
  ends_with_user (history_sent attempt st).
Proof.
  intros H. unfold history_sent. destruct attempt; simpl; [auto|].
  apply ends_with_user_snoc.
Qed.

(** The three ways a pass that reaches the oracle can go. *)
Lemma attempt_body_on_error attempt st :
  Py.truthy_opt (GOOGLE_AI_API_KEY w) = true ->
  (attempt = 0 -> ends_with_user (conversation_history st)) ->
  target_reached cfg (collected_new_songs_for_playlist_uris st) = false ->
  w_generate_content w attempt (map adapt (history_sent attempt st)) = ApiError ->
  body attempt st
  = Next (after_empty_attempt st (history_sent attempt st)
            [CallGenerateContent (map adapt (history_sent attempt st))]).
Proof.
  intros Hkey Hhist Hroom Hans. unfold attempt_body. rewrite Hroom.
  fold (history_sent attempt st).
  rewrite gemini_result by auto using history_sent_ends_with_user.
  rewrite Hans. reflexivity.
Qed.

Lemma attempt_body_on_empty attempt st raw :
  Py.truthy_opt (GOOGLE_AI_API_KEY w) = true ->
  (attempt = 0 -> ends_with_user (conversation_history st)) ->
  target_reached cfg (collected_new_songs_for_playlist_uris st) = false ->
  w_generate_content w attempt (map adapt (history_sent attempt st)) = ResponseText raw ->
  parse_response json_loads repr raw = [] ->
  body attempt st
  = Next (after_empty_attempt st
            (append_model_response (history_sent attempt st) (Some raw))
            [CallGenerateContent (map adapt (history_sent attempt st))]).
Proof.
  intros Hkey Hhist Hroom Hans Hparse. unfold attempt_body. rewrite Hroom.
  fold (history_sent attempt st).
  rewrite gemini_result by auto using history_sent_ends_with_user.
  rewrite Hans, Hparse. reflexivity.
Qed.

Lemma attempt_body_on_batch attempt st raw r recs :
  Py.truthy_opt (GOOGLE_AI_API_KEY w) = true ->
  (attempt = 0 -> ends_with_user (conversation_history st)) ->
  target_reached cfg (collected_new_songs_for_playlist_uris st) = false ->
  w_generate_content w attempt (map adapt (history_sent attempt st)) = ResponseText raw ->
  parse_response json_loads repr raw = r :: recs ->
  let st' :=
    after_batch w cfg liked history_ids attempt st
      (append_model_response (history_sent attempt st) (Some raw))
      [CallGenerateContent (map adapt (history_sent attempt st))] (r :: recs) in
  body attempt st
  = if target_reached cfg (collected_new_songs_for_playlist_uris st')
    then Break st' else Next st'.
Proof.
  intros Hkey Hhist Hroom Hans Hparse. unfold attempt_body. rewrite Hroom.
  fold (history_sent attempt st).
  rewrite gemini_result by auto using history_sent_ends_with_user.
  rewrite Hans, Hparse. unfold after_batch.
  destruct (verify_and_filter_songs_on_spotify _ _ _) as [batch ev2].
  cbn [fst snd].
  destruct (accept_batch _ _ _ _ _ _) as [uris details].
  reflexivity.
Qed.

(** A pass through the body either breaks at once, without a call, or
    makes exactly one oracle call; it ends in [Break] exactly when the
    target is reached. *)
Lemma attempt_body_calls attempt st :
  Py.truthy_opt (GOOGLE_AI_API_KEY w) = true ->
  (attempt = 0 -> ends_with_user (conversation_history st)) ->
  match body attempt st with
  | Break st' =>
      target_reached cfg (collected_new_songs_for_playlist_uris st') = true
      /\ (if target_reached cfg (collected_new_songs_for_playlist_uris st)
          then st' = st
          else oracle_calls (calls st') = oracle_calls (calls st) + 1)
  | Next st' =>
      target_reached cfg (collected_new_songs_for_playlist_uris st) = false
      /\ target_reached cfg (collected_new_songs_for_playlist_uris st') = false
      /\ oracle_calls (calls st') = oracle_calls (calls st) + 1
  end.
Proof.
  intros Hkey Hhist. unfold attempt_body.
  destruct (target_reached cfg (collected_new_songs_for_playlist_uris st)) eqn:Hfull.
  { rewrite Hfull. auto. }
  pose proof (gemini_sends attempt _ Hkey (history_sent_ends_with_user attempt st Hhist)) as Hsend.
  unfold history_sent in Hsend.
  destruct (gemini attempt _ _) as [[recs raw] ev]. simpl in Hsend. subst ev.
  destruct recs as [|r recs].
  { simpl. rewrite oracle_calls_app. auto. }
  pose proof (verify_no_oracle_call (w_search w attempt) (r :: recs) 0) as Hv.
  destruct (verify_and_filter_songs_on_spotify _ _ _) as [batch ev2]. simpl in Hv.
  destruct (accept_batch _ _ _ _ _ _) as [uris details].
  match goal with
  | |- context [calls st ++ ?e ++ ev2] =>
      assert (Hcount : oracle_calls (calls st ++ e ++ ev2) = oracle_calls (calls st) + 1)
        by (rewrite !oracle_calls_app, Hv; simpl; lia)
  end.
  destruct (target_reached cfg uris) eqn:Hafter; cbn [calls collected_new_songs_for_playlist_uris];
    rewrite ?Hfull, ?Hafter; auto.
Qed.

Lemma attempts_from_calls remaining : forall first st,
  Py.truthy_opt (GOOGLE_AI_API_KEY w) = true ->
  state_ok cfg history_ids st ->
  (first = 0 -> ends_with_user (conversation_history st)) ->
  exists made,
    oracle_calls (calls (loop_from first remaining st)) = oracle_calls (calls st) + made
    /\ made <= remaining
    /\ (made < remaining <->
        exists k, k < remaining
          /\ TARGET_NEW_SONGS_COUNT cfg
             <= List.length (collected_new_songs_for_playlist_details (loop_from first k st))).
Proof.
  assert (Hlen : forall st, state_ok cfg history_ids st ->
            target_reached cfg (collected_new_songs_for_playlist_uris st)
            = (TARGET_NEW_SONGS_COUNT cfg
               <=? List.length (collected_new_songs_for_playlist_details st))%nat).
  { intros st [Hu _ _ _]. unfold target_reached. rewrite Hu, length_map. reflexivity. }
  induction remaining as [|r IH]; intros first st Hkey Hok Hhist.
  { exists 0. simpl. split; [lia|]. split; [lia|]. split; [lia|]. intros (k & Hk & _). lia. }
  pose proof (attempt_body_calls first st Hkey Hhist) as Hbody.
  pose proof (attempt_body_ok json_loads repr w cfg liked history_ids first st Hok) as Hok'.
  simpl. destruct (body first st) as [st'|st'] eqn:Hb; simpl in Hok'.
  - destruct Hbody as (Hbefore & Hafter & Hcount).
    destruct (IH (S first) st' Hkey Hok') as (made & Hmade & Hle & Hiff); [discriminate|].
    exists (S made). split; [lia|]. split; [lia|].
    rewrite <- Nat.succ_lt_mono, Hiff. split.
    + intros (k & Hk & Hreach). exists (S k). split; [lia|]. simpl. rewrite Hb. assumption.
    + intros (k & Hk & Hreach). destruct k as [|k].
      * simpl in Hreach. rewrite Hlen in Hbefore by assumption.
        apply Nat.leb_gt in Hbefore. lia.
      * exists k. split; [lia|]. simpl in Hreach. rewrite Hb in Hreach. assumption.
  - destruct Hbody as (Hafter & Hcase).
    destruct (target_reached cfg (collected_new_songs_for_playlist_uris st)) eqn:Hbefore.
    + subst st'. exists 0. split; [lia|]. split; [lia|]. split; [|lia].
      intros _. exists 0. split; [lia|]. simpl.
      rewrite Hlen in Hbefore by assumption. apply Nat.leb_le in Hbefore. assumption.
    + exists 1. split; [lia|]. split; [lia|]. split.
      * intros Hr. exists 1. split; [lia|]. simpl. rewrite Hb.
        rewrite Hlen in Hafter by assumption. apply Nat.leb_le in Hafter. assumption.
      * intros (k & Hk & Hreach). destruct k as [|k]; [|lia].
        simpl in Hreach. rewrite Hlen in Hbefore by assumption.
        apply Nat.leb_gt in Hbefore. lia.
Qed.

End OracleCalls.

(** ** The collected set *)

(** C1: at every point of the attempt loop (after any number [budget] of
    passes, so also when the loop is left), every entry of the collected set
    has a catalog ID outside the history-ID set, a popularity that is unknown
    or at most the configured maximum and a release year that is unknown or
    at least the configured minimum; no two entries share a catalog ID; the
    set holds at most [TARGET_NEW_SONGS_COUNT] entries, so the final
    truncation keeps all of them. *)
Theorem collected_set_filters_and_bound
  (json_loads : string -> option json) (repr : json -> string)
  (w : World) (cfg : Config)
  (liked : gset (string * string)) (history_ids : gset string)
  (sample : list Song) (budget : nat) :
  let st := collection_loop_upto json_loads repr w cfg liked history_ids budget sample in
  let collected := collected_new_songs_for_playlist_details st in
  Forall (fun e => (si_id e ∉ history_ids)
                   ∧ popularity_ok cfg e ∧ release_year_ok cfg e) collected
  ∧ NoDup (map si_id collected)
  ∧ List.length collected <= TARGET_NEW_SONGS_COUNT cfg
  ∧ collected_new_songs_for_playlist_uris st = map si_uri collected
  ∧ take (TARGET_NEW_SONGS_COUNT cfg) collected = collected.
Proof.
  intros st collected.
  destruct (collection_loop_upto_ok json_loads repr w cfg liked history_ids budget sample)
    as [Hu He Hd Hs].
  fold st in Hu, He, Hd, Hs. fold collected in Hu, He, Hd, Hs.
  repeat split; try assumption.
  apply take_ge. assumption.
Qed.

(** ** The attempt budget *)

(** C3: with the API key present (the configuration check lets no run
    reach the loop without it), the loop makes at most
    [MAX_GEMINI_ATTEMPTS] oracle calls, and it makes fewer exactly when the
    collected set has reached the target after some number [k] of attempts
    smaller than the budget. *)
Theorem oracle_calls_within_budget
  (json_loads : string -> option json) (repr : json -> string)
  (w : World) (cfg : Config)
  (liked : gset (string * string)) (history_ids : gset string)
  (sample : list Song) :
  Py.truthy_opt (GOOGLE_AI_API_KEY w) = true ->
  let made :=
    oracle_calls (calls (collection_loop json_loads repr w cfg liked history_ids sample)) in
  made <= MAX_GEMINI_ATTEMPTS cfg
  /\ (made < MAX_GEMINI_ATTEMPTS cfg <->
      exists k, k < MAX_GEMINI_ATTEMPTS cfg
        /\ TARGET_NEW_SONGS_COUNT cfg
           <= List.length
                (collected_new_songs_for_playlist_details
                   (collection_loop_upto json_loads repr w cfg liked history_ids k sample))).
Proof.
  intros Hkey made.
  destruct (attempts_from_calls json_loads repr w cfg liked history_ids
              (MAX_GEMINI_ATTEMPTS cfg) 0 (initial_state sample) Hkey
              (initial_state_ok cfg history_ids sample))
    as (m & Hm & Hle & Hiff).
  { intros _. eexists. split; reflexivity. }
  assert (made = m) as -> by (subst made; unfold collection_loop, collection_loop_upto;
                              rewrite Hm; reflexivity).
  split; [assumption|]. exact Hiff.
Qed.

(** ** Attempts without suggestions *)

Section EmptyAttempts.

Context (json_loads : string -> option json) (repr : json -> string).
Context (w : World) (cfg : Config).
Context (liked : gset (string * string)) (history_ids : gset string).

Local Abbreviation body := (attempt_body json_loads repr w cfg liked history_ids).
Local Abbreviation loop_from := (attempts_from json_loads repr w cfg liked history_ids).
Local Abbreviation gemini := (get_gemini_recommendations_google_ai json_loads repr w).

(** Whatever the guards of the function decide, an answer without
    suggestions makes it return the empty list. *)
Lemma gemini_no_suggestions attempt api_key history :
  no_suggestions json_loads repr (w_generate_content w attempt (map adapt history)) ->
  fst (fst (gemini attempt api_key history)) = [].
Proof.
  intros Hno. unfold get_gemini_recommendations_google_ai.
  destruct (negb (Py.truthy_opt api_key)); [reflexivity|].
  destruct (last (map adapt history)) as [m|]; [|reflexivity].
  destruct (decide (a_role m = user)); [|reflexivity].
  destruct (w_generate_content w attempt (map adapt history)); simpl in *; auto.
Qed.

Lemma empty_attempt_continues first st :
  target_reached cfg (collected_new_songs_for_playlist_uris st) = false ->
  no_suggestions json_loads repr
    (w_generate_content w first (map adapt (history_sent first st))) ->
  exists st',
    body first st = Next st'
    /\ collected_new_songs_for_playlist_uris st' = collected_new_songs_for_playlist_uris st
    /\ collected_new_songs_for_playlist_details st'
       = collected_new_songs_for_playlist_details st.
Proof.
  intros Hroom Hno. unfold attempt_body. rewrite Hroom.
  pose proof (gemini_no_suggestions first (GOOGLE_AI_API_KEY w) _ Hno) as Hrecs.
  unfold history_sent in Hrecs.
  destruct (gemini first _ _) as [[recs raw] ev]. simpl in Hrecs. subst recs.
  eexists. split; [reflexivity|]. split; reflexivity.
Qed.

End EmptyAttempts.

(** C5: an attempt whose oracle call fails, or whose answer is not JSON or
    holds no valid suggestion, uses up one attempt of the budget and leaves
    the collected set as it was; the loop goes on with the next attempt.
    In the scenario with a budget of 5 and a target of 1, where the first
    answer is not JSON and the second holds one suggestion that resolves to
    an accepted candidate, the loop makes exactly 2 oracle calls and the
    collected set is that one candidate. *)
Theorem failed_attempt_counts_and_loop_continues
  (json_loads : string -> option json) (repr : json -> string)
  (w : World) (cfg : Config)
  (liked : gset (string * string)) (history_ids : gset string) :
  (forall first remaining st,
     target_reached cfg (collected_new_songs_for_playlist_uris st) = false ->
     no_suggestions json_loads repr
       (w_generate_content w first (map adapt (history_sent first st))) ->
     exists st',
       attempts_from json_loads repr w cfg liked history_ids first (S remaining) st
       = attempts_from json_loads repr w cfg liked history_ids (S first) remaining st'
       /\ collected_new_songs_for_playlist_details st'
          = collected_new_songs_for_playlist_details st)
  /\ (forall sample raw1 raw2 t a found_track e,
        MAX_GEMINI_ATTEMPTS cfg = 5 ->
        TARGET_NEW_SONGS_COUNT cfg = 1 ->
        Py.truthy_opt (GOOGLE_AI_API_KEY w) = true ->
        (forall h, w_generate_content w 0 h = ResponseText raw1) ->
        json_loads raw1 = None ->
        (forall h, w_generate_content w 1 h = ResponseText raw2) ->
        json_loads raw2 = Some (JArr [JObj [("track", JStr t); ("artist", JStr a)]]) ->
        Py.truthy t = true -> Py.truthy a = true ->
        w_search w 1 0 (search_query t a) = SearchItems [found_track] ->
        song_info_of found_track = Returns e ->
        accepted cfg liked history_ids [] e = true ->
        let st := collection_loop json_loads repr w cfg liked history_ids sample in
        oracle_calls (calls st) = 2
        /\ collected_new_songs_for_playlist_details st = [e]).
Proof.
  split.
  - intros first remaining st Hroom Hno.
    destruct (empty_attempt_continues json_loads repr w cfg liked history_ids
                first st Hroom Hno) as (st' & Hbody & _ & Hd).
    exists st'. simpl. rewrite Hbody. auto.
  - intros sample raw1 raw2 t a found_track e HA HN Hkey H1 Hj1 H2 Hj2 Ht Ha Hs Hinfo Hacc.
    assert (Hroom : forall uris, uris = [] -> target_reached cfg uris = false).
    { intros uris ->. unfold target_reached. rewrite HN. reflexivity. }
    assert (Hp1 : parse_response json_loads repr raw1 = []).
    { unfold parse_response. rewrite Hj1. reflexivity. }
    assert (Hp2 : parse_response json_loads repr raw2 = [ {| track := t; artist := a |} ]).
    { unfold parse_response. rewrite Hj2. reflexivity. }
    unfold collection_loop, collection_loop_upto. rewrite HA.
    cbn [attempts_from].
    rewrite (attempt_body_on_empty json_loads repr w cfg liked history_ids 0 _ raw1);
      [ | assumption | intros _; eexists; split; reflexivity | apply Hroom; reflexivity
        | apply H1 | assumption ].
    rewrite (attempt_body_on_batch json_loads repr w cfg liked history_ids 1 _ raw2
               {| track := t; artist := a |} []);
      [ | assumption | discriminate | apply Hroom; reflexivity | apply H2 | assumption ].
    unfold after_batch.
    cbn [verify_and_filter_songs_on_spotify track artist].
    rewrite Ht, Ha. cbn [negb orb]. rewrite Hs.
    cbn [resolve]. rewrite Hinfo.
    cbn [fst snd app accept_batch after_empty_attempt
         collected_new_songs_for_playlist_uris
         collected_new_songs_for_playlist_details initial_state].
    rewrite HN. cbn [List.length Nat.leb]. rewrite Hacc.
    cbn [app accept_batch fst snd collected_new_songs_for_playlist_uris].
    unfold target_reached. rewrite HN.
    cbn [List.length Nat.leb collected_new_songs_for_playlist_details calls].
    split; [|reflexivity].
    rewrite !oracle_calls_app. reflexivity.
Qed.

(** ** The parser of oracle answers *)

Section Parser.

Context (json_loads : string -> option json) (repr : json -> string).

Lemma dict_get_some key members :
  key ∈ map fst members <-> is_Some (dict_get key members).
Proof.
  unfold dict_get. induction members as [|[k v] ms IH]; simpl.
  - split; [intros H; inversion H|intros [x Hx]; discriminate].
  - destruct (String.eqb_spec k key) as [->|Hne]; simpl.
    + split; [eauto|intros _; apply elem_of_cons; auto].
    + rewrite <- IH. rewrite elem_of_cons. split; [|auto].
      intros [Heq|Hin]; [congruence|assumption].
Qed.

Lemma valid_recommendation_kept rec :
  has_track_and_artist rec ->
  exists members t a,
    rec = JObj members
    /\ dict_get "track" members = Some t /\ dict_get "artist" members = Some a
    /\ valid_recommendation repr rec = Some {| track := str repr t; artist := str repr a |}.
Proof.
  intros (members & -> & Ht & Ha).
  apply dict_get_some in Ht as [t Ht]. apply dict_get_some in Ha as [a Ha].
  exists members, t, a. simpl. rewrite Ht, Ha. auto.
Qed.

Lemma valid_recommendation_discarded rec :
  ~ has_track_and_artist rec -> valid_recommendation repr rec = None.
Proof.
  intros Hnot. destruct rec as [| | | |l|members]; try reflexivity. simpl.
  destruct (dict_get "track" members) as [t|] eqn:Ht; [|reflexivity].
  destruct (dict_get "artist" members) as [a|] eqn:Ha; [|reflexivity].
  exfalso. apply Hnot. exists members.
  split; [reflexivity|]. split; apply dict_get_some; eauto.
Qed.

Lemma valid_recommendations_cons rec l :
  valid_recommendations repr (rec :: l)
  = match valid_recommendation repr rec with
    | Some s => s :: valid_recommendations repr l
    | None => valid_recommendations repr l
    end.
Proof. reflexivity. Qed.

Lemma recommendations_of_wrapped parsed l :
  wraps_list parsed l -> recommendations_of parsed = l.
Proof. intros [->|[key ->]]; reflexivity. Qed.

Lemma recommendations_of_other parsed :
  (forall l, ~ wraps_list parsed l) -> recommendations_of parsed = [].
Proof.
  intros Hnot. destruct parsed as [| | | |l|members]; try reflexivity.
  - exfalso. apply (Hnot l). left. reflexivity.
  - destruct members as [|[key v] ms]; [reflexivity|].
    destruct v, ms; try reflexivity.
    exfalso. eapply Hnot. right. eexists. reflexivity.
Qed.

End Parser.

(** C6: the parser returns the valid entries of the list when the answer
    is a bare JSON array or an object with exactly one key whose value is an
    array; an entry is kept (as its "track" and "artist" values) when it is
    an object with both keys and dropped otherwise; any other JSON document,
    and any text that is not JSON, gives no suggestion, and the attempt then
    ends with the loop going on to the next one. *)
Theorem parser_accepts_list_and_wrapped_list
  (json_loads : string -> option json) (repr : json -> string) :
  (forall raw parsed l,
     json_loads raw = Some parsed -> wraps_list parsed l ->
     parse_response json_loads repr raw = valid_recommendations repr l)
  /\ (forall rec l,
        has_track_and_artist rec ->
        exists members t a,
          rec = JObj members
          /\ dict_get "track" members = Some t /\ dict_get "artist" members = Some a
          /\ valid_recommendations repr (rec :: l)
             = {| track := str repr t; artist := str repr a |}
               :: valid_recommendations repr l)
  /\ (forall rec l,
        ~ has_track_and_artist rec ->
        valid_recommendations repr (rec :: l) = valid_recommendations repr l)
  /\ (forall raw parsed,
        json_loads raw = Some parsed -> (forall l, ~ wraps_list parsed l) ->
        parse_response json_loads repr raw = [])
  /\ (forall raw, json_loads raw = None -> parse_response json_loads repr raw = [])
  /\ (forall w cfg liked history_ids attempt st raw,
        target_reached cfg (collected_new_songs_for_playlist_uris st) = false ->
        w_generate_content w attempt (map adapt (history_sent attempt st))
        = ResponseText raw ->
        parse_response json_loads repr raw = [] ->
        exists st',
          attempt_body json_loads repr w cfg liked history_ids attempt st = Next st').
Proof.
  repeat split.
  - intros raw parsed l Hj Hw. unfold parse_response. rewrite Hj.
    rewrite (recommendations_of_wrapped parsed l Hw). reflexivity.
  - intros rec l Hrec.
    destruct (valid_recommendation_kept repr rec Hrec) as (members & t & a & -> & Ht & Ha & Hv).
    exists members, t, a. repeat split; try assumption.
    rewrite valid_recommendations_cons, Hv. reflexivity.
  - intros rec l Hrec.
    rewrite valid_recommendations_cons, (valid_recommendation_discarded repr rec Hrec).
    reflexivity.
  - intros raw parsed Hj Hnot. unfold parse_response. rewrite Hj.
    rewrite (recommendations_of_other parsed Hnot). reflexivity.
  - intros raw Hj. unfold parse_response. rewrite Hj. reflexivity.
  - intros w cfg liked history_ids attempt st raw Hroom Hans Hparse.
    destruct (empty_attempt_continues json_loads repr w cfg liked history_ids attempt st Hroom)
      as (st' & Hbody & _); [rewrite Hans; exact Hparse|].
    eauto.
Qed.

(** ** Release years *)

Section ReleaseYear.

(** Case analysis on the comparisons a character test is made of. *)
Ltac char_cases c :=
  unfold Py.is_space, Py.is_ascii_digit, Py.is_digit_char, Py.is_ascii_digit;
  set (n := Py.code c);
  repeat match goal with
         | |- context [N.leb ?a ?b] => destruct (N.leb_spec a b)
         | |- context [N.eqb ?a ?b] => destruct (N.eqb_spec a b)
         | |- context [N.ltb ?a ?b] => destruct (N.ltb_spec a b)
         end;
  simpl; intros; try reflexivity; try discriminate; try lia.

Lemma digit_not_space c : Py.is_ascii_digit c = true -> Py.is_space c = false.
Proof. char_cases c. Qed.

Lemma digit_not_plus c : Py.is_ascii_digit c = true -> (Py.code c =? 43)%N = false.
Proof. char_cases c. Qed.

Lemma digit_not_hyphen c : Py.is_ascii_digit c = true -> (Py.code c =? 45)%N = false.
Proof. char_cases c. Qed.

Lemma ascii_digit_char c :
  Py.is_digit_char c = true -> (Py.code c <? 128)%N = true -> Py.is_ascii_digit c = true.
Proof. char_cases c. Qed.

Lemma int_digits_all_digits s : forall acc,
  Py.all_chars Py.is_ascii_digit s = true ->
  Py.int_digits acc true s = Some (decimal_from acc s).
Proof.
  induction s as [|c r IH]; intros acc Hd; simpl in *; [reflexivity|].
  apply andb_true_iff in Hd as [Hc Hr]. rewrite Hc. auto.
Qed.

Lemma rstrip_digits s :
  Py.all_chars Py.is_ascii_digit s = true -> Py.rstrip s = s.
Proof.
  induction s as [|c r IH]; simpl; intros Hd; [reflexivity|].
  apply andb_true_iff in Hd as [Hc Hr]. rewrite (IH Hr).
  destruct r; [|reflexivity]. rewrite (digit_not_space c Hc). reflexivity.
Qed.

Lemma strip_digits s :
  Py.all_chars Py.is_ascii_digit s = true -> Py.strip s = s.
Proof.
  intros Hd. unfold Py.strip.
  assert (Py.lstrip s = s) as ->; [|apply rstrip_digits; assumption].
  destruct s as [|c r]; [reflexivity|]. simpl in *.
  apply andb_true_iff in Hd as [Hc _]. rewrite (digit_not_space c Hc). reflexivity.
Qed.

(** [int] reads a non-empty string of decimal digits as the number it
    denotes. *)
Lemma int_of_digits s :
  Py.all_chars Py.is_ascii_digit s = true -> s <> EmptyString ->
  Py.int s = Some (decimal s).
Proof.
  intros Hd Hne. unfold Py.int. rewrite (strip_digits s Hd).
  destruct s as [|c r]; [contradiction|].
  pose proof Hd as Hd'. simpl in Hd'. apply andb_true_iff in Hd' as [Hc Hr].
  rewrite (digit_not_plus c Hc), (digit_not_hyphen c Hc).
  unfold decimal. simpl. rewrite Hc. apply int_digits_all_digits. assumption.
Qed.

Lemma before_hyphen_digits year :
  Py.all_chars Py.is_ascii_digit year = true -> Py.before_hyphen year = year.
Proof.
  induction year as [|c r IH]; simpl; intros Hd; [reflexivity|].
  apply andb_true_iff in Hd as [Hc Hr].
  rewrite (digit_not_hyphen c Hc), (IH Hr). reflexivity.
Qed.

Lemma before_hyphen_date year rest :
  Py.all_chars Py.is_ascii_digit year = true ->
  Py.before_hyphen (year +:+ String "-" rest) = year.
Proof.
  induction year as [|c r IH]; simpl; intros Hd; [reflexivity|].
  apply andb_true_iff in Hd as [Hc Hr].
  rewrite (digit_not_hyphen c Hc), (IH Hr). reflexivity.
Qed.

Lemma parse_release_year_catalog date year :
  catalog_date date year ->
  parse_release_year (Some date) = Returns (Some (decimal year)).
Proof.
  intros (Hlen & Hd & Hshape).
  assert (Hne : year <> EmptyString) by (intros ->; discriminate Hlen).
  assert (Hbefore : Py.before_hyphen date = year).
  { destruct Hshape as [->|[rest ->]];
      [apply before_hyphen_digits|apply before_hyphen_date]; assumption. }
  assert (Htruthy : Py.truthy date = true).
  { destruct year as [|c r]; [contradiction|].
    destruct Hshape as [->|[rest ->]]; reflexivity. }
  unfold parse_release_year. rewrite Htruthy, Hbefore, (int_of_digits year Hd Hne).
  reflexivity.
Qed.

Lemma ascii_isdigit s :
  is_ascii s = true -> Py.all_chars Py.is_digit_char s = true ->
  Py.all_chars Py.is_ascii_digit s = true.
Proof.
  unfold is_ascii. induction s as [|c r IH]; simpl; [reflexivity|].
  rewrite !andb_true_iff. intros [Ha Hr] [Hc Hd].
  split; [apply ascii_digit_char; assumption|auto].
Qed.

(** On text below U+0080 the fallback of the release-year block never
    succeeds where the first [int] failed: an unparsable date leaves the
    year unknown. *)
Lemma parse_release_year_unparsable s :
  is_ascii s = true ->
  Py.int (Py.before_hyphen s) = None ->
  parse_release_year (Some s) = Returns None.
Proof.
  intros Hascii Hint. unfold parse_release_year.
  destruct (Py.truthy s) eqn:Htruthy; [|reflexivity].
  rewrite Hint.
  destruct ((String.length s =? 4)%nat && Py.isdigit s) eqn:Hfallback; [|reflexivity].
  exfalso. apply andb_true_iff in Hfallback as [_ Hdig].
  unfold Py.isdigit in Hdig. apply andb_true_iff in Hdig as [_ Hdig].
  pose proof (ascii_isdigit s Hascii Hdig) as Hd.
  rewrite (before_hyphen_digits s Hd), int_of_digits in Hint;
    [discriminate|assumption|].
  intros ->. discriminate Htruthy.
Qed.

End ReleaseYear.

(** C4: for a track with at least one artist, the release year stored on
    the candidate is the number written by the leading four digits of a
    catalog date (YYYY, YYYY-MM or YYYY-MM-DD); when the date is absent or
    empty, or its text before the first hyphen is not an integer, the year
    is unknown; and a candidate with an unknown year is never too old,
    whatever the configured minimum. *)
Theorem release_year_is_leading_year
  (found_track : Track) (a : Artist) (others : list Artist) :
  tr_artists found_track = a :: others ->
  (forall date year,
     tr_release_date found_track = Some date -> catalog_date date year ->
     exists e, song_info_of found_track = Returns e
               /\ si_release_year e = Some (decimal year))
  /\ (tr_release_date found_track = None
      \/ tr_release_date found_track = Some EmptyString ->
      exists e, song_info_of found_track = Returns e /\ si_release_year e = None)
  /\ (forall date,
        tr_release_date found_track = Some date ->
        is_ascii date = true -> Py.int (Py.before_hyphen date) = None ->
        exists e, song_info_of found_track = Returns e /\ si_release_year e = None)
  /\ (forall cfg e, si_release_year e = None -> is_too_old cfg e = false).
Proof.
  intros Hartists. repeat split.
  - intros date year Hdate Hcat. unfold song_info_of.
    rewrite Hdate, (parse_release_year_catalog date year Hcat), Hartists.
    eexists. split; reflexivity.
  - intros Habsent. unfold song_info_of.
    destruct Habsent as [-> | ->]; simpl; rewrite Hartists;
      eexists; split; reflexivity.
  - intros date Hdate Hascii Hint. unfold song_info_of.
    rewrite Hdate, (parse_release_year_unparsable date Hascii Hint), Hartists.
    eexists. split; reflexivity.
  - intros cfg e Hyear. unfold is_too_old. rewrite Hyear.
    destruct (MIN_RELEASE_YEAR cfg); reflexivity.
Qed.

(** ** Playlist writes *)

Section Writes.

Lemma slice_length {A} (l : list A) i : List.length (slice l i (i + 100)) <= 100.
Proof.
  unfold slice. rewrite length_take. lia.
Qed.

Lemma add_requests_size playlist_id track_uris :
  Forall (fun e => request_size e <= 100) (add_requests playlist_id track_uris).
Proof.
  unfold add_requests. apply Forall_map, Forall_forall. intros i _. simpl.
  apply slice_length.
Qed.

Lemma issue_forall (P : Event -> Prop) raises requests : forall k,
  Forall P requests -> Forall P (snd (issue raises k requests)).
Proof.
  induction requests as [|r rest IH]; intros k Hall; simpl; [constructor|].
  inversion Hall as [|? ? Hr Hrest]; subst.
  destruct (raises k); simpl; [repeat constructor; assumption|].
  specialize (IH (S k) Hrest).
  destruct (issue raises (S k) rest) as [ok ev]. simpl in *.
  constructor; assumption.
Qed.

Lemma update_playlist_items_size raises playlist_id track_uris replace :
  Forall (fun e => request_size e <= 100)
         (snd (update_playlist_items raises playlist_id track_uris replace)).
Proof.
  unfold update_playlist_items.
  destruct playlist_id as [pid|]; [|constructor].
  destruct (negb (Py.truthy pid)); [constructor|].
  destruct track_uris as [|u us].
  - destruct replace; [|constructor].
    apply issue_forall. constructor; [simpl; lia|constructor].
  - destruct replace.
    + destruct (Nat.leb_spec (List.length (u :: us)) 100).
      * apply issue_forall. constructor; [simpl in *; lia|constructor].
      * apply issue_forall. constructor; [simpl; lia|apply add_requests_size].
    + apply issue_forall, add_requests_size.
Qed.

(** An append to a playlist with a usable ID starts with the first hundred
    URIs. *)
Lemma update_playlist_items_append_first raises pid u us :
  Py.truthy pid = true ->
  hd_error (snd (update_playlist_items raises (Some pid) (u :: us) false))
  = Some (CallAddItems pid (take 100 (u :: us))).
Proof.
  intros Hpid. unfold update_playlist_items. rewrite Hpid. cbn [negb].
  unfold add_requests, range_step.
  assert (Hn : exists n, (List.length (u :: us) + 100 - 1) / 100 = S n).
  { destruct ((List.length (u :: us) + 100 - 1) / 100) eqn:Hq; [|eauto].
    apply Nat.div_small_iff in Hq; simpl in *; lia. }
  destruct Hn as [n ->]. cbn [seq map issue].
  destruct (raises 0); [reflexivity|].
  destruct (issue raises 1 _). reflexivity.
Qed.

(** A replacement of a playlist with a usable ID starts with a
    [playlist_replace_items] request. *)
Lemma update_playlist_items_replace_first raises pid track_uris :
  Py.truthy pid = true ->
  exists first_uris,
    hd_error (snd (update_playlist_items raises (Some pid) track_uris true))
    = Some (CallReplaceItems pid first_uris).
Proof.
  intros Hpid. unfold update_playlist_items. rewrite Hpid. cbn [negb].
  destruct track_uris as [|u us].
  - simpl. destruct (raises 0); eauto.
  - destruct (List.length (u :: us) <=? 100)%nat; cbn [issue];
      destruct (raises 0); eauto; destruct (issue raises 1 _); eauto.
Qed.

End Writes.

Section Sync.

Context (w : World) (cfg : Config) (p : Prepared).
Context (history_ids : gset string) (st : LoopState).
Hypothesis Hok : state_ok cfg history_ids st.

Lemma final_lists_whole :
  take (TARGET_NEW_SONGS_COUNT cfg) (collected_new_songs_for_playlist_uris st)
  = map si_uri (collected_new_songs_for_playlist_details st)
  /\ take (TARGET_NEW_SONGS_COUNT cfg) (collected_new_songs_for_playlist_details st)
     = collected_new_songs_for_playlist_details st.
Proof.
  destruct Hok as [Hu _ _ Hs]. rewrite Hu.
  split; apply take_ge; rewrite ?length_map; assumption.
Qed.

(** With nothing collected the script exits before any sync step. *)
Lemma playlist_sync_nothing :
  collected_new_songs_for_playlist_details st = [] ->
  playlist_sync w cfg p st = (inl (Exit 0), []).
Proof.
  intros Hnone. unfold playlist_sync.
  destruct final_lists_whole as [-> _]. rewrite Hnone. reflexivity.
Qed.

(** The events of the sync part when the latest-batch playlist can neither
    be found nor created. *)
Lemma playlist_sync_without_new ev :
  collected_new_songs_for_playlist_details st <> [] ->
  get_or_create_playlist_id w 1 (user_id p) NEW_PLAYLIST_NAME = (Returns None, ev) ->
  Py.truthy_opt (all_recs_playlist_id p) = true ->
  snd (playlist_sync w cfg p st)
  = ev ++ snd (sync_step w 1 (all_recs_playlist_id p)
                 (map si_uri (collected_new_songs_for_playlist_details st)) false).
Proof.
  intros Hsome Hnew Hall. unfold playlist_sync.
  destruct final_lists_whole as [-> ->].
  destruct (collected_new_songs_for_playlist_details st) as [|d ds]; [contradiction|].
  cbn [map]. rewrite Hnew, Hall. unfold call_unguarded, bind, ret, stop. cbn [fst snd Py.truthy_opt].
  destruct (sync_step w 1 _ _ _) as [[t|[]] ev']; simpl; rewrite ?app_nil_r; reflexivity.
Qed.

(** The events of the sync part when the history playlist could neither be
    found nor created at the start. *)
Lemma playlist_sync_without_history ev pid :
  collected_new_songs_for_playlist_details st <> [] ->
  all_recs_playlist_id p = None ->
  get_or_create_playlist_id w 1 (user_id p) NEW_PLAYLIST_NAME = (Returns (Some pid), ev) ->
  Py.truthy pid = true ->
  snd (playlist_sync w cfg p st)
  = ev ++ snd (sync_step w 0 (Some pid)
                 (map si_uri (collected_new_songs_for_playlist_details st)) true).
Proof.
  intros Hsome Hall Hnew Hpid. unfold playlist_sync.
  destruct final_lists_whole as [-> ->].
  destruct (collected_new_songs_for_playlist_details st) as [|d ds]; [contradiction|].
  cbn [map]. rewrite Hnew, Hall. unfold call_unguarded, bind, ret, stop.
  cbn [fst snd Py.truthy_opt]. rewrite Hpid.
  destruct (sync_step w 0 _ _ _) as [[t|[]] ev']; simpl; rewrite ?app_nil_r; reflexivity.
Qed.

End Sync.

Lemma sync_step_events w n playlist_id track_uris replace :
  exists tail,
    snd (sync_step w n playlist_id track_uris replace)
    = snd (update_playlist_items (w_write_raises w n) playlist_id track_uris replace) ++ tail.
Proof.
  unfold sync_step, call, bind.
  destruct (update_playlist_items _ _ _ _) as [[|] ev]; cbn [fst snd].
  - destruct playlist_id as [pid|]; [|exists []; reflexivity].
    unfold call_unguarded. cbn [fst snd].
    destruct (w_playlist_url w pid); eexists; reflexivity.
  - exists []. reflexivity.
Qed.

(** C8: every request that [update_playlist_items] issues, replacing or
    appending, carries at most 100 track URIs; when the latest-batch
    playlist can neither be found nor created, the append to the history
    playlist is still issued, and when the history playlist could neither be
    found nor created, the replacement of the latest-batch playlist is still
    issued. *)
Theorem sync_requests_bounded_and_independent
  (w : World) (cfg : Config) (p : Prepared)
  (history_ids : gset string) (st : LoopState) :
  state_ok cfg history_ids st ->
  collected_new_songs_for_playlist_details st <> [] ->
  (forall raises playlist_id track_uris replace,
     Forall (fun e => request_size e <= 100)
            (snd (update_playlist_items raises playlist_id track_uris replace)))
  /\ (forall ev pid,
        get_or_create_playlist_id w 1 (user_id p) NEW_PLAYLIST_NAME = (Returns None, ev) ->
        all_recs_playlist_id p = Some pid -> Py.truthy pid = true ->
        exists rest,
          snd (playlist_sync w cfg p st)
          = ev ++ CallAddItems pid
                    (take 100 (map si_uri (collected_new_songs_for_playlist_details st)))
                  :: rest)
  /\ (forall ev pid,
        all_recs_playlist_id p = None ->
        get_or_create_playlist_id w 1 (user_id p) NEW_PLAYLIST_NAME
        = (Returns (Some pid), ev) ->
        Py.truthy pid = true ->
        exists first_uris rest,
          snd (playlist_sync w cfg p st)
          = ev ++ CallReplaceItems pid first_uris :: rest).
Proof.
  intros Hok Hsome. split; [|split].
  - apply update_playlist_items_size.
  - intros ev pid Hnew Hall Hpid.
    rewrite (playlist_sync_without_new w cfg p history_ids st Hok ev Hsome Hnew)
      by (rewrite Hall; exact Hpid).
    rewrite Hall.
    destruct (sync_step_events w 1 (Some pid)
                (map si_uri (collected_new_songs_for_playlist_details st)) false)
      as [tail ->].
    destruct (collected_new_songs_for_playlist_details st) as [|d ds]; [contradiction|].
    pose proof (update_playlist_items_append_first (w_write_raises w 1) pid
                  (si_uri d) (map si_uri ds) Hpid) as Hfirst.
    cbn [map]. destruct (snd (update_playlist_items _ _ _ _)) as [|e es];
      [discriminate|].
    injection Hfirst as ->. eexists. reflexivity.
  - intros ev pid Hall Hnew Hpid.
    rewrite (playlist_sync_without_history w cfg p history_ids st Hok ev pid
               Hsome Hall Hnew Hpid).
    destruct (sync_step_events w 0 (Some pid)
                (map si_uri (collected_new_songs_for_playlist_details st)) true)
      as [tail ->].
    destruct (update_playlist_items_replace_first (w_write_raises w 0) pid
                (map si_uri (collected_new_songs_for_playlist_details st)) Hpid)
      as [first_uris Hfirst].
    destruct (snd (update_playlist_items _ _ _ _)) as [|e es]; [discriminate|].
    injection Hfirst as ->. eexists _, _. reflexivity.
Qed.

(** ** Exit codes *)

Section Exits.

Context (json_loads : string -> option json) (repr : json -> string).

Lemma no_write_app a b : no_write a -> no_write b -> no_write (a ++ b).
Proof. intros Ha Hb. apply Forall_app; split; assumption. Qed.

Lemma liked_no_write pages : forall offset,
  no_write (snd (get_all_liked_songs_details_from pages offset)).
Proof.
  induction pages as [|pg rest IH]; intros offset; simpl.
  - repeat constructor.
  - destruct pg as [|[|i items] next]; try (repeat constructor).
    destruct next; [|repeat constructor].
    specialize (IH (offset + 50)).
    destruct (get_all_liked_songs_details_from rest (offset + 50)) as [more ev].
    constructor; [reflexivity|assumption].
Qed.

Lemma playlist_tracks_no_write w playlist_id :
  no_write (snd (get_playlist_tracks_simplified w playlist_id)).
Proof.
  unfold get_playlist_tracks_simplified.
  destruct playlist_id as [pid|]; [|constructor].
  destruct (Py.truthy pid); [|constructor].
  generalize 0. induction (w_playlist_items w pid) as [|pg rest IH]; intros offset; simpl.
  - repeat constructor.
  - destruct pg as [|[|i items] next]; try (repeat constructor).
    destruct next; [|repeat constructor].
    specialize (IH (offset + 100)).
    destruct (get_playlist_tracks_simplified_from pid rest (offset + 100)) as [more ev].
    constructor; [reflexivity|assumption].
Qed.

Lemma get_or_create_no_write w n uid name :
  no_write (snd (get_or_create_playlist_id w n uid name)).
Proof.
  unfold get_or_create_playlist_id, get_playlist_by_name.
  destruct (w_user_playlists w n) as [pages|]; [|repeat constructor].
  assert (Hpages : no_write (snd (get_playlist_by_name_from pages name uid))).
  { induction pages as [|items rest IH]; simpl; [constructor|].
    destruct (find _ items); [constructor|].
    destruct rest as [|r rest']; [constructor|].
    destruct (get_playlist_by_name_from (r :: rest') name uid) as [res ev].
    constructor; [reflexivity|assumption]. }
  destruct (get_playlist_by_name_from pages name uid) as [[pl|] ev]; simpl in *.
  - constructor; [reflexivity|assumption].
  - constructor; [reflexivity|]. apply no_write_app; [assumption|repeat constructor].
Qed.

Lemma startup_no_write w : no_write (snd (startup w)).
Proof.
  unfold startup. destruct (negb (config_present w)); [constructor|].
  unfold bind, call, call_unguarded, ret, stop. cbn [fst snd].
  destruct (w_me w) as [uid|]; [|repeat constructor].
  pose proof (liked_no_write (w_saved_tracks w) 0) as Hl.
  unfold get_all_liked_songs_details.
  destruct (get_all_liked_songs_details_from (w_saved_tracks w) 0) as [[|d ds] ev1];
    cbn [fst snd] in *.
  { rewrite app_nil_r. constructor; [reflexivity|assumption]. }
  pose proof (get_or_create_no_write w 0 uid ALL_RECS_PLAYLIST_NAME) as Hg.
  destruct (get_or_create_playlist_id w 0 uid ALL_RECS_PLAYLIST_NAME) as [[pid|] ev2];
    cbn [fst snd] in *.
  - pose proof (playlist_tracks_no_write w pid) as Ht.
    destruct (get_playlist_tracks_simplified w pid) as [existing ev3]. cbn [fst snd] in *.
    rewrite app_nil_r.
    constructor; [reflexivity|]. repeat apply no_write_app; assumption.
  - constructor; [reflexivity|]. apply no_write_app; assumption.
Qed.

Lemma verify_no_write search recs : forall i,
  no_write (snd (verify_and_filter_songs_on_spotify search i recs)).
Proof.
  induction recs as [|r recs IH]; intros i; simpl; [constructor|].
  specialize (IH (S i)).
  destruct (verify_and_filter_songs_on_spotify search (S i) recs) as [more ev].
  destruct (negb _ || negb _); simpl in *; [assumption|].
  constructor; [reflexivity|assumption].
Qed.

Lemma gemini_no_write w attempt api_key history :
  no_write (snd (get_gemini_recommendations_google_ai json_loads repr w attempt api_key history)).
Proof.
  unfold get_gemini_recommendations_google_ai.
  destruct (negb _); [constructor|].
  destruct (last _) as [m|]; [|constructor].
  destruct (decide _); [|constructor].
  destruct (w_generate_content _ _ _); repeat constructor.
Qed.

Lemma loop_no_write w cfg liked history_ids budget sample :
  no_write (calls (collection_loop_upto json_loads repr w cfg liked history_ids budget sample)).
Proof.
  unfold collection_loop_upto.
  apply (attempts_from_invariant json_loads repr w cfg liked history_ids
           (fun st => no_write (calls st))); [|constructor].
  intros attempt st Hst. unfold attempt_body.
  destruct (target_reached _ _); [assumption|].
  pose proof (gemini_no_write w attempt (GOOGLE_AI_API_KEY w)) as Hg.
  match goal with
  | |- context [get_gemini_recommendations_google_ai _ _ _ _ _ ?h] => specialize (Hg h)
  end.
  destruct (get_gemini_recommendations_google_ai _ _ _ _ _ _) as [[recs raw] ev].
  cbn [snd] in Hg.
  destruct recs as [|r recs]; [apply no_write_app; assumption|].
  pose proof (verify_no_write (w_search w attempt) (r :: recs) 0) as Hv.
  destruct (verify_and_filter_songs_on_spotify _ _ _) as [batch ev2]. cbn [snd] in Hv.
  destruct (accept_batch _ _ _ _ _ _) as [uris details].
  destruct (target_reached _ _); simpl; repeat apply no_write_app; assumption.
Qed.

End Exits.

(** C9: when one of the four required configuration values is missing,
    the process exits with code 1 and no call has been made; when the
    attempt loop ends with nothing collected, the process exits with code 0
    right after the loop's last call, without any request that changes a
    playlist. *)
Theorem exit_codes
  (json_loads : string -> option json) (repr : json -> string)
  (w : World) (cfg : Config) :
  (SPOTIFY_CLIENT_ID w = None \/ SPOTIFY_CLIENT_SECRET w = None
   \/ SPOTIFY_REDIRECT_URI w = None \/ GOOGLE_AI_API_KEY w = None ->
   main json_loads repr w cfg = (Exit 1, []))
  /\ (forall p ev,
        startup w = (inr p, ev) ->
        collected_new_songs_for_playlist_details (run_loop json_loads repr w cfg p) = [] ->
        main json_loads repr w cfg
        = (Exit 0, ev ++ calls (run_loop json_loads repr w cfg p))
        /\ no_write (snd (main json_loads repr w cfg))).
Proof.
  split.
  - intros Hmissing.
    assert (Hcfg : config_present w = false).
    { unfold config_present.
      destruct Hmissing as [-> | [-> | [-> | ->]]]; simpl;
        rewrite ?andb_false_r; reflexivity. }
    unfold main, startup. rewrite Hcfg. reflexivity.
  - intros p ev Hstart Hnone.
    assert (Hmain : main json_loads repr w cfg
                    = (Exit 0, ev ++ calls (run_loop json_loads repr w cfg p))).
    { unfold main. rewrite Hstart. unfold bind, call. cbn [fst snd].
      rewrite (playlist_sync_nothing w cfg p
                 (all_recs_history_track_ids_set (existing_all_recs_songs_details p))
                 (run_loop json_loads repr w cfg p));
        [ | apply collection_loop_upto_ok | assumption ].
      rewrite !app_nil_r. reflexivity. }
    split; [assumption|].
    rewrite Hmain. cbn [snd]. apply no_write_app.
    + pose proof (startup_no_write w) as Hs. rewrite Hstart in Hs. exact Hs.
    + apply loop_no_write.
Qed.

(** ** Secondary artists *)

Section Primary.

Context (json_loads : string -> option json) (repr : json -> string).

Lemma liked_song_of_item_primary item :
  liked_song_of_item (item_primary item) = liked_song_of_item item.
Proof.
  destruct item as [[id name [|a others]]|]; reflexivity.
Qed.

Lemma playlist_track_of_item_primary item :
  playlist_track_of_item (item_primary item) = playlist_track_of_item item.
Proof.
  destruct item as [[id name [|a others]]|]; reflexivity.
Qed.

Lemma map_items_primary {A} (f : option ItemTrack -> list A) items :
  (forall item, f (item_primary item) = f item) ->
  List.concat (map f (map item_primary items)) = List.concat (map f items).
Proof.
  intros Hf. induction items as [|i items IH]; simpl; [reflexivity|].
  rewrite Hf, IH. reflexivity.
Qed.

Lemma liked_details_primary pages : forall offset,
  get_all_liked_songs_details_from (map page_primary pages) offset
  = get_all_liked_songs_details_from pages offset.
Proof.
  induction pages as [|pg rest IH]; intros offset; simpl; [reflexivity|].
  destruct pg as [|[|i items] next]; simpl; try reflexivity.
  rewrite IH, liked_song_of_item_primary.
  rewrite (map_items_primary liked_song_of_item items liked_song_of_item_primary).
  reflexivity.
Qed.

Lemma playlist_tracks_primary pid pages : forall offset,
  get_playlist_tracks_simplified_from pid (map page_primary pages) offset
  = get_playlist_tracks_simplified_from pid pages offset.
Proof.
  induction pages as [|pg rest IH]; intros offset; simpl; [reflexivity|].
  destruct pg as [|[|i items] next]; simpl; try reflexivity.
  rewrite IH, playlist_track_of_item_primary.
  rewrite (map_items_primary playlist_track_of_item items playlist_track_of_item_primary).
  reflexivity.
Qed.

Lemma song_info_of_primary found_track :
  song_info_of (track_primary found_track) = song_info_of found_track.
Proof.
  unfold song_info_of. simpl.
  destruct (parse_release_year _); [|reflexivity].
  destruct (tr_artists found_track); reflexivity.
Qed.

Lemma resolve_primary outcome : resolve (search_primary outcome) = resolve outcome.
Proof.
  destruct outcome as [|[|t items]]; simpl; try reflexivity.
  rewrite song_info_of_primary. reflexivity.
Qed.

Lemma verify_primary search recs : forall i,
  verify_and_filter_songs_on_spotify (fun i q => search_primary (search i q)) i recs
  = verify_and_filter_songs_on_spotify search i recs.
Proof.
  induction recs as [|r recs IH]; intros i; simpl; [reflexivity|].
  rewrite IH, resolve_primary. reflexivity.
Qed.

Lemma attempt_body_primary w cfg liked history_ids attempt st :
  attempt_body json_loads repr (world_primary w) cfg liked history_ids attempt st
  = attempt_body json_loads repr w cfg liked history_ids attempt st.
Proof.
  unfold attempt_body.
  destruct (target_reached _ _); [reflexivity|].
  change (GOOGLE_AI_API_KEY (world_primary w)) with (GOOGLE_AI_API_KEY w).
  change (get_gemini_recommendations_google_ai json_loads repr (world_primary w))
    with (get_gemini_recommendations_google_ai json_loads repr w).
  destruct (get_gemini_recommendations_google_ai _ _ _ _ _ _) as [[recs raw] ev].
  destruct recs as [|r recs]; [reflexivity|].
  change (w_search (world_primary w) attempt)
    with (fun i q => search_primary (w_search w attempt i q)).
  rewrite verify_primary. reflexivity.
Qed.

Lemma attempts_from_primary w cfg liked history_ids remaining : forall first st,
  attempts_from json_loads repr (world_primary w) cfg liked history_ids first remaining st
  = attempts_from json_loads repr w cfg liked history_ids first remaining st.
Proof.
  induction remaining as [|k IH]; intros first st; simpl; [reflexivity|].
  rewrite attempt_body_primary.
  destruct (attempt_body _ _ _ _ _ _ _ _) as [st'|st']; auto.
Qed.

Lemma startup_primary w : startup (world_primary w) = startup w.
Proof.
  unfold startup.
  change (config_present (world_primary w)) with (config_present w).
  destruct (negb (config_present w)); [reflexivity|].
  change (w_me (world_primary w)) with (w_me w).
  unfold get_all_liked_songs_details.
  change (w_saved_tracks (world_primary w)) with (map page_primary (w_saved_tracks w)).
  rewrite liked_details_primary.
  assert (Htracks : forall pid, get_playlist_tracks_simplified (world_primary w) pid
                                = get_playlist_tracks_simplified w pid).
  { intros [pid|]; [|reflexivity]. unfold get_playlist_tracks_simplified.
    destruct (Py.truthy pid); [|reflexivity].
    change (w_playlist_items (world_primary w) pid)
      with (map page_primary (w_playlist_items w pid)).
    apply playlist_tracks_primary. }
  change (get_or_create_playlist_id (world_primary w))
    with (get_or_create_playlist_id w).
  unfold bind. destruct (call_unguarded _) as [[t|uid] ev]; [reflexivity|].
  destruct (call _) as [[t|details] ev1]; [reflexivity|].
  destruct details as [|d ds]; [reflexivity|].
  destruct (call_unguarded _) as [[t|pid] ev2]; [reflexivity|].
  rewrite Htracks. reflexivity.
Qed.

Lemma run_loop_primary w cfg p :
  run_loop json_loads repr (world_primary w) cfg p = run_loop json_loads repr w cfg p.
Proof.
  unfold run_loop, collection_loop, collection_loop_upto.
  change (w_shuffle (world_primary w)) with (w_shuffle w).
  apply attempts_from_primary.
Qed.

Lemma main_primary w cfg :
  main json_loads repr (world_primary w) cfg = main json_loads repr w cfg.
Proof.
  unfold main. rewrite startup_primary.
  unfold bind. destruct (startup w) as [[t|p] ev]; [reflexivity|].
  rewrite run_loop_primary.
  change (playlist_sync (world_primary w)) with (playlist_sync w).
  reflexivity.
Qed.

End Primary.

(** C10: a liked song, a history-playlist track and a resolved candidate
    each record the name of the first artist of the catalog track and of no
    other; removing every secondary artist from every catalog answer changes
    neither the calls the script makes nor the way it ends nor the set it
    collects. *)
Theorem only_first_artist_recorded
  (json_loads : string -> option json) (repr : json -> string)
  (w : World) (cfg : Config) :
  (forall item s,
     s ∈ liked_song_of_item item ->
     exists t a others,
       item = Some t /\ it_artists t = a :: others /\ artist s = artist_name a)
  /\ (forall item s,
        s ∈ playlist_track_of_item item ->
        exists t a others,
          item = Some t /\ it_artists t = a :: others /\ pt_artist s = artist_name a)
  /\ (forall found_track e,
        song_info_of found_track = Returns e ->
        exists a others,
          tr_artists found_track = a :: others /\ si_artist e = artist_name a)
  /\ main json_loads repr (world_primary w) cfg = main json_loads repr w cfg
  /\ collected_set json_loads repr (world_primary w) cfg
     = collected_set json_loads repr w cfg.
Proof.
  repeat split.
  - intros [[id name [|a others]]|] s Hs; simpl in Hs;
      try (apply elem_of_nil in Hs; contradiction).
    + destruct name; apply elem_of_nil in Hs; contradiction.
    + destruct name as [name|]; [|apply elem_of_nil in Hs; contradiction].
      destruct (Py.truthy name); [|apply elem_of_nil in Hs; contradiction].
      apply list_elem_of_singleton in Hs. subst s.
      eexists _, a, others. repeat split.
  - intros [[id name [|a others]]|] s Hs; simpl in Hs;
      try (apply elem_of_nil in Hs; contradiction).
    + destruct id, name; apply elem_of_nil in Hs; contradiction.
    + destruct id as [id|]; [|apply elem_of_nil in Hs; contradiction].
      destruct name as [name|]; [|apply elem_of_nil in Hs; contradiction].
      destruct (Py.truthy id && Py.truthy name); [|apply elem_of_nil in Hs; contradiction].
      apply list_elem_of_singleton in Hs. subst s.
      eexists _, a, others. repeat split.
  - intros found_track e He. unfold song_info_of in He.
    destruct (parse_release_year _) as [year|]; [|discriminate].
    destruct (tr_artists found_track) as [|a others]; [discriminate|].
    injection He as <-. exists a, others. split; reflexivity.
  - apply main_primary.
  - unfold collected_set. rewrite startup_primary.
    destruct (fst (startup w)); [reflexivity|].
    rewrite run_loop_primary. reflexivity.
Qed.

(** ** The liked-songs check *)

Section Liked.

Context (json_loads : string -> option json) (repr : json -> string).
Context (w : World) (cfg : Config).
Context (liked : gset (string * string)) (history_ids : gset string).

Lemma accept_batch_not_liked batch : forall uris details,
  Forall (fun e => looked_up e ∉ liked) details ->
  Forall (fun e => looked_up e ∉ liked)
         (snd (accept_batch cfg liked history_ids batch uris details)).
Proof.
  induction batch as [|e rest IH]; intros uris details Hd; simpl; [assumption|].
  destruct (_ <=? _)%nat; [assumption|].
  destruct (accepted cfg liked history_ids details e) eqn:Hacc; [|auto].
  apply IH, Forall_app. split; [assumption|].
  apply (accepted_entry cfg liked history_ids) in Hacc as (Hl & _).
  repeat constructor. exact Hl.
Qed.

(** What the loop does guarantee about liked songs: the lower-cased, but
    not trimmed, title and artist of a collected entry are not in the
    liked-songs set. *)
Lemma collected_not_liked_as_looked_up budget sample :
  Forall (fun e => looked_up e ∉ liked)
         (collected_new_songs_for_playlist_details
            (collection_loop_upto json_loads repr w cfg liked history_ids budget sample)).
Proof.
  unfold collection_loop_upto.
  apply (attempts_from_invariant json_loads repr w cfg liked history_ids
           (fun st => Forall (fun e => looked_up e ∉ liked)
                             (collected_new_songs_for_playlist_details st)));
    [|constructor].
  intros attempt st Hst. unfold attempt_body.
  destruct (target_reached _ _); [assumption|].
  destruct (get_gemini_recommendations_google_ai _ _ _ _ _ _) as [[recs raw] ev].
  destruct recs as [|r recs]; [assumption|].
  destruct (verify_and_filter_songs_on_spotify _ _ _) as [batch ev2].
  pose proof (accept_batch_not_liked batch
                (collected_new_songs_for_playlist_uris st) _ Hst) as Hb.
  destruct (accept_batch _ _ _ _ _ _) as [uris details]; simpl in Hb.
  destruct (target_reached _ _); assumption.
Qed.

End Liked.

(** C2, on the run [Examples.liked_with_blank]: the user has saved the track
    titled "Blue " by "Artist A"; the oracle suggests it and the catalog
    resolves the suggestion to that track.  The run collects it, although its
    trimmed and lower-cased title and artist are in the liked-songs set: the
    set is built with [strip] and [lower], the lookup with [lower] alone. *)
Theorem liked_song_with_blank_is_collected :
  exists p e,
    fst (startup Examples.liked_with_blank) = inr p
    /\ collected_set Examples.json_loads Examples.repr
         Examples.liked_with_blank Examples.cfg_5_1 = Some [e]
    /\ normalized e ∈ all_my_liked_songs_set (all_my_liked_songs_details p)
    /\ looked_up e ∉ all_my_liked_songs_set (all_my_liked_songs_details p).
Proof.
  eexists _, _. split; [vm_compute; reflexivity|].
  split; [vm_compute; reflexivity|].
  split.
  - apply (bool_decide_unpack _). vm_compute. exact I.
  - intros Hin. apply (bool_decide_pack _) in Hin. vm_compute in Hin. exact Hin.
Qed.

(** ** The conversation history *)

Section History.

Context (json_loads : string -> option json) (repr : json -> string).
Context (w : World) (cfg : Config).
Context (liked : gset (string * string)) (history_ids : gset string).

Lemma append_model_response_prefix history raw :
  history `prefix_of` append_model_response history raw.
Proof.
  unfold append_model_response.
  destruct raw as [raw|]; [|reflexivity].
  destruct (Py.truthy raw); [apply prefix_app_r|]; reflexivity.
Qed.

(** The history only grows. *)
Lemma history_append_only attempt st :
  conversation_history st
  `prefix_of` conversation_history
                (flow_state (attempt_body json_loads repr w cfg liked history_ids attempt st)).
Proof.
  unfold attempt_body.
  destruct (target_reached _ _); [reflexivity|].
  destruct (get_gemini_recommendations_google_ai _ _ _ _ _ _) as [[recs raw] ev].
  assert (Hgrow : forall h,
            conversation_history st
            `prefix_of` append_model_response
                          (if (0 <? attempt)%nat then conversation_history st ++ h
                           else conversation_history st) raw).
  { intros h. etransitivity; [|apply append_model_response_prefix].
    destruct (0 <? attempt)%nat; [apply prefix_app_r|]; reflexivity. }
  destruct recs as [|r recs]; [apply Hgrow|].
  destruct (verify_and_filter_songs_on_spotify _ _ _) as [batch ev2].
  destruct (accept_batch _ _ _ _ _ _) as [uris details].
  destruct (target_reached _ _); apply Hgrow.
Qed.

(** A request goes out only with a history whose last message has the
    user role. *)
Lemma sent_history_ends_with_user attempt api_key history h :
  CallGenerateContent h
    ∈ snd (get_gemini_recommendations_google_ai json_loads repr w attempt api_key history) ->
  exists m, last h = Some m /\ a_role m = user.
Proof.
  unfold get_gemini_recommendations_google_ai.
  destruct (negb _); [intros H; apply elem_of_nil in H; contradiction|].
  destruct (last (map adapt history)) as [m|] eqn:Hlast;
    [|intros H; apply elem_of_nil in H; contradiction].
  destruct (decide (a_role m = user)) as [Hrole|];
    [|intros H; apply elem_of_nil in H; contradiction].
  intros Hin.
  assert (h = map adapt history) as ->.
  { destruct (w_generate_content _ _ _); simpl in Hin;
      apply list_elem_of_singleton in Hin; congruence. }
  eauto.
Qed.

End History.

(** C7, on the run [Examples.error_then_gold]: the first oracle call
    raises, so no model message is appended; the second attempt appends its
    user prompt all the same, and the history sent with the second request
    is two user messages in a row. *)
Theorem history_after_api_error_has_two_user_turns :
  exists h1 h2,
    histories_sent
      (snd (main Examples.json_loads Examples.repr
              Examples.error_then_gold Examples.cfg_5_1)) = [h1; h2]
    /\ map a_role h1 = [user]
    /\ map a_role h2 = [user; user]
    /\ alternates (map a_role h2) = false.
Proof.
  eexists _, _. split; [vm_compute; reflexivity|].
  repeat split.
Qed.

(** * Further properties *)

(** ** Playlist writes: what reaches the playlist *)

Section WriteEffect.

Lemma chunks_cover {A} n : forall l : list A,
  List.length l <= n * 100 ->
  List.concat (map (fun i => slice l i (i + 100)) (map (fun k => k * 100) (seq 0 n))) = l.
Proof.
  induction n as [|n IH]; intros l Hlen.
  - destruct l; [reflexivity|simpl in Hlen; lia].
  - cbn [seq map List.concat].
    rewrite <- seq_shift, !map_map.
    assert (Hrest :
      map (fun k => slice l (S k * 100) (S k * 100 + 100)) (seq 0 n)
      = map (fun k => slice (drop 100 l) (k * 100) (k * 100 + 100)) (seq 0 n)).
    { apply map_ext. intros k. unfold slice.
      rewrite drop_drop.
      replace (S k * 100 + 100 - S k * 100) with (k * 100 + 100 - k * 100) by lia.
      replace (100 + k * 100) with (S k * 100) by lia. reflexivity. }
    rewrite Hrest, <- (map_map (fun k => k * 100)
                              (fun i => slice (drop 100 l) i (i + 100))).
    rewrite IH by (rewrite length_drop; lia).
    unfold slice. simpl. rewrite drop_0. apply take_drop.
Qed.

Lemma range_step_covers len : len <= (len + 100 - 1) / 100 * 100.
Proof.
  pose proof (Nat.div_mod_eq (len + 100 - 1) 100) as Hdm.
  pose proof (Nat.mod_upper_bound (len + 100 - 1) 100) as Hub.
  lia.
Qed.

Lemma playlist_after_adds playlist_id chunks : forall before,
  playlist_after before (map (CallAddItems playlist_id) chunks)
  = before ++ List.concat chunks.
Proof.
  induction chunks as [|c cs IH]; intros before; simpl.
  - rewrite app_nil_r. reflexivity.
  - unfold playlist_after in *. simpl. rewrite IH, app_assoc. reflexivity.
Qed.

Lemma playlist_after_add_requests before playlist_id track_uris :
  playlist_after before (add_requests playlist_id track_uris) = before ++ track_uris.
Proof.
  unfold add_requests, range_step.
  rewrite <- (map_map (fun i => slice track_uris i (i + 100)) (CallAddItems playlist_id)).
  rewrite playlist_after_adds, chunks_cover; [reflexivity|apply range_step_covers].
Qed.

Lemma issue_all_succeed raises requests : forall k,
  (forall j, raises j = false) -> issue raises k requests = (true, requests).
Proof.
  induction requests as [|r rest IH]; intros k Hnone; simpl; [reflexivity|].
  rewrite Hnone, IH by assumption. reflexivity.
Qed.

Lemma issue_prefix raises requests : forall k,
  snd (issue raises k requests) `prefix_of` requests
  /\ (fst (issue raises k requests) = true -> snd (issue raises k requests) = requests)
  /\ (fst (issue raises k requests) = false ->
      exists n, raises (k + n) = true
                /\ List.length (snd (issue raises k requests)) = S n
                /\ forall j, j < n -> raises (k + j) = false).
Proof.
  induction requests as [|r rest IH]; intros k; simpl.
  - split; [reflexivity|]. split; [reflexivity|discriminate].
  - destruct (raises k) eqn:Hk; simpl.
    + split; [exists rest; reflexivity|]. split; [discriminate|].
      intros _. exists 0. rewrite Nat.add_0_r. split; [assumption|].
      split; [reflexivity|]. intros j Hj. lia.
    + destruct (IH (S k)) as (Hpre & Hall & Hfail).
      destruct (issue raises (S k) rest) as [ok ev]. simpl in *.
      split; [apply prefix_cons; assumption|].
      split; [intros Hok; rewrite (Hall Hok); reflexivity|].
      intros Hok. destruct (Hfail Hok) as (n & Hn & Hlen & Hbefore).
      exists (S n). rewrite Nat.add_succ_r. split; [assumption|].
      split; [simpl; rewrite Hlen; reflexivity|].
      intros [|j] Hj; [rewrite Nat.add_0_r; assumption|].
      rewrite Nat.add_succ_r. apply Hbefore. lia.
Qed.

End WriteEffect.

Lemma update_effect
  (raises : nat -> bool) (pid : string) (track_uris before : list string)
  (replace : bool) :
  Py.truthy pid = true ->
  (forall k, raises k = false) ->
  fst (update_playlist_items raises (Some pid) track_uris replace) = true
  /\ playlist_after before (snd (update_playlist_items raises (Some pid) track_uris replace))
     = (if replace then track_uris else before ++ track_uris)
  /\ Forall (fun e => request_playlist e = Some pid)
            (snd (update_playlist_items raises (Some pid) track_uris replace)).
Proof.
  intros Hpid Hnone. unfold update_playlist_items. rewrite Hpid. cbn [negb].
  assert (Hadds : Forall (fun e => request_playlist e = Some pid)
                         (add_requests pid track_uris)).
  { unfold add_requests. apply Forall_map, Forall_forall. intros i _. reflexivity. }
  destruct track_uris as [|u us].
  - destruct replace; rewrite ?issue_all_succeed by assumption; cbn [fst snd].
    + repeat split. repeat constructor.
    + rewrite app_nil_r. repeat split. constructor.
  - destruct replace.
    + destruct (List.length (u :: us) <=? 100)%nat;
        rewrite issue_all_succeed by assumption; cbn [fst snd].
      * repeat split. repeat constructor.
      * split; [reflexivity|]. split; [|constructor; [reflexivity|assumption]].
        unfold playlist_after. cbn [fold_left apply_request].
        apply (playlist_after_add_requests [] pid (u :: us)).
    + rewrite issue_all_succeed by assumption. cbn [fst snd].
      split; [reflexivity|]. split; [|assumption].
      apply playlist_after_add_requests.
Qed.

(** X1: when no request raises, [update_playlist_items] on a usable
    playlist ID returns [True]; in append mode the requests leave the
    playlist with its previous content followed by all the track URIs in
    order, in replace mode with exactly the track URIs; and every request is
    addressed to that playlist. *)
Theorem update_playlist_items_effect
  (raises : nat -> bool) (pid : string) (track_uris before : list string)
  (replace : bool) :
  Py.truthy pid = true ->
  (forall k, raises k = false) ->
  fst (update_playlist_items raises (Some pid) track_uris replace) = true
  /\ playlist_after before (snd (update_playlist_items raises (Some pid) track_uris replace))
     = (if replace then track_uris else before ++ track_uris)
  /\ Forall (fun e => request_playlist e = Some pid)
            (snd (update_playlist_items raises (Some pid) track_uris replace)).
Proof. exact (update_effect raises pid track_uris before replace). Qed.

(** X2: without a usable playlist ID [update_playlist_items] returns
    [False] and sends nothing.  With one, the requests sent are an initial
    part of the requests of a run where nothing raises: all of them when the
    function returns [True]; when it returns [False], the last request sent
    is the first that raised and nothing is sent after it. *)
Theorem update_playlist_items_stops_at_failure
  (raises : nat -> bool) (playlist_id : option string)
  (track_uris : list string) (replace : bool) :
  let planned := snd (update_playlist_items (fun _ => false) playlist_id track_uris replace) in
  let result := update_playlist_items raises playlist_id track_uris replace in
  (Py.truthy_opt playlist_id = false -> result = (false, []))
  /\ (Py.truthy_opt playlist_id = true ->
      snd result `prefix_of` planned
      /\ (fst result = true -> snd result = planned)
      /\ (fst result = false ->
          exists n, raises n = true
                    /\ List.length (snd result) = S n
                    /\ forall j, j < n -> raises j = false)).
Proof.
  intros planned result. subst planned result. split.
  - intros Hid. unfold update_playlist_items.
    destruct playlist_id as [pid|]; [|reflexivity].
    simpl in Hid. rewrite Hid. reflexivity.
  - intros Hid. destruct playlist_id as [pid|]; [|discriminate].
    simpl in Hid. unfold update_playlist_items. rewrite Hid. cbn [negb].
    assert (Hissue : forall requests,
              snd (issue raises 0 requests) `prefix_of` snd (issue (fun _ => false) 0 requests)
              /\ (fst (issue raises 0 requests) = true ->
                  snd (issue raises 0 requests) = snd (issue (fun _ => false) 0 requests))
              /\ (fst (issue raises 0 requests) = false ->
                  exists n, raises n = true
                            /\ List.length (snd (issue raises 0 requests)) = S n
                            /\ forall j, j < n -> raises j = false)).
    { intros requests. rewrite (issue_all_succeed (fun _ => false)) by reflexivity.
      exact (issue_prefix raises requests 0). }
    destruct track_uris as [|u us].
    + destruct replace; [apply Hissue|].
      split; [reflexivity|]. split; [reflexivity|discriminate].
    + destruct replace; [|apply Hissue].
      destruct (List.length (u :: us) <=? 100)%nat; apply Hissue.
Qed.

(** ** Paginated reads *)

Section Reads.

Lemma offsets_succ start step n :
  offsets start step (S n) = start :: offsets (start + step) step n.
Proof.
  unfold offsets. cbn [seq map]. rewrite <- seq_shift, map_map.
  f_equal; [lia|]. apply map_ext. intros k. lia.
Qed.

End Reads.

(** X3: [get_all_liked_songs_details] reads the pages at offsets 0, 50,
    100, ... up to and including the first page that raises, is empty or
    has no "next" link, and never a page after it; it returns the songs of
    all the pages read, in order, so an error keeps what was read before. *)
Theorem liked_songs_read_until_first_stop
  (before_stop : list Page) (last_page : Page) (never_read : list Page) (offset : nat) :
  Forall (fun p => stops p = false) before_stop ->
  stops last_page = true ->
  get_all_liked_songs_details_from (before_stop ++ last_page :: never_read) offset
  = (List.concat (map page_liked_songs (before_stop ++ [last_page])),
     map CallSavedTracks (offsets offset 50 (S (List.length before_stop)))).
Proof.
  intros Hbefore Hlast. revert offset.
  induction Hbefore as [|p ps Hp Hps IH]; intros offset.
  - cbn [app List.length map List.concat]. rewrite offsets_succ. cbn [offsets seq map].
    destruct last_page as [|[|i items] next]; simpl in *;
      try reflexivity.
    destruct next; [discriminate|]. rewrite app_nil_r. reflexivity.
  - cbn [app List.length]. rewrite offsets_succ. cbn [map List.concat].
    destruct p as [|[|i items] next]; simpl in Hp; try discriminate.
    destruct next; [|discriminate].
    cbn [get_all_liked_songs_details_from]. rewrite IH. reflexivity.
Qed.

(** X4: [get_playlist_tracks_simplified] reads a playlist in the same way,
    at offsets 0, 100, 200, ...: it stops with the first page that raises,
    is empty or has no "next" link, and returns the tracks of the pages read
    so far. *)
Theorem playlist_tracks_read_until_first_stop
  (playlist_id : string)
  (before_stop : list Page) (last_page : Page) (never_read : list Page) (offset : nat) :
  Forall (fun p => stops p = false) before_stop ->
  stops last_page = true ->
  get_playlist_tracks_simplified_from playlist_id
    (before_stop ++ last_page :: never_read) offset
  = (List.concat (map page_playlist_tracks (before_stop ++ [last_page])),
     map (CallPlaylistItems playlist_id)
         (offsets offset 100 (S (List.length before_stop)))).
Proof.
  intros Hbefore Hlast. revert offset.
  induction Hbefore as [|p ps Hp Hps IH]; intros offset.
  - cbn [app List.length map List.concat]. rewrite offsets_succ. cbn [offsets seq map].
    destruct last_page as [|[|i items] next]; simpl in *;
      try reflexivity.
    destruct next; [discriminate|]. rewrite app_nil_r. reflexivity.
  - cbn [app List.length]. rewrite offsets_succ. cbn [map List.concat].
    destruct p as [|[|i items] next]; simpl in Hp; try discriminate.
    destruct next; [|discriminate].
    cbn [get_playlist_tracks_simplified_from]. rewrite IH. reflexivity.
Qed.

(** ** The two de-duplication sets *)

Lemma liked_set_spec
  (all_my_liked_songs_details : list Song) (t a : string) :
  (t, a) ∈ all_my_liked_songs_set all_my_liked_songs_details
  <-> exists s,
        s ∈ all_my_liked_songs_details
        /\ t = Py.lower (Py.strip (track s))
        /\ a = Py.lower (Py.strip (artist s))
        /\ t <> EmptyString /\ a <> EmptyString.
Proof.
  unfold all_my_liked_songs_set.
  assert (Hgen : forall l (acc : gset (string * string)),
            (t, a) ∈ fold_left
                       (fun acc song_detail =>
                          let track_ := Py.lower (Py.strip (track song_detail)) in
                          let artist_ := Py.lower (Py.strip (artist song_detail)) in
                          if Py.truthy track_ && Py.truthy artist_
                          then acc ∪ {[ (track_, artist_) ]} else acc) l acc
            <-> (t, a) ∈ acc
                \/ exists s, s ∈ l /\ t = Py.lower (Py.strip (track s))
                             /\ a = Py.lower (Py.strip (artist s))
                             /\ t <> EmptyString /\ a <> EmptyString).
  { induction l as [|s l IH]; intros acc; cbn [fold_left].
    - split; [auto|]. intros [H|(s & Hs & _)]; [assumption|].
      apply elem_of_nil in Hs. contradiction.
    - rewrite IH. cbv zeta.
      destruct (Py.truthy (Py.lower (Py.strip (track s)))
                && Py.truthy (Py.lower (Py.strip (artist s)))) eqn:Htruthy.
      + apply andb_true_iff in Htruthy as [Ht Ha].
        rewrite elem_of_union, elem_of_singleton. split.
        * intros [[H|H]|(s' & Hs' & Hrest)].
          -- left. assumption.
          -- right. exists s. injection H as -> ->.
             split; [apply elem_of_cons; auto|].
             repeat split; intros Habs; rewrite Habs in *; discriminate.
          -- right. exists s'. split; [apply elem_of_cons; auto|assumption].
        * intros [H|(s' & Hs' & Ht' & Ha' & Hrest)]; [auto|].
          apply elem_of_cons in Hs' as [->|Hs']; [left; right; congruence|].
          right. exists s'. auto.
      + split.
        * intros [H|(s' & Hs' & Hrest)]; [auto|].
          right. exists s'. split; [apply elem_of_cons; auto|assumption].
        * intros [H|(s' & Hs' & Ht' & Ha' & Hnt & Hna)]; [auto|].
          apply elem_of_cons in Hs' as [->|Hs']; [|right; exists s'; auto].
          exfalso. subst t a.
          destruct (Py.lower (Py.strip (track s))); [contradiction|].
          destruct (Py.lower (Py.strip (artist s))); [contradiction|].
          discriminate Htruthy. }
  rewrite Hgen. split; [|auto].
  intros [H|H]; [|assumption]. apply elem_of_empty in H. contradiction.
Qed.

(** X5: a pair is in the liked-songs set exactly when it is the trimmed,
    lower-cased title and artist of some liked song and neither is empty. *)
Theorem liked_songs_set_members
  (all_my_liked_songs_details : list Song) (t a : string) :
  (t, a) ∈ all_my_liked_songs_set all_my_liked_songs_details
  <-> exists s,
        s ∈ all_my_liked_songs_details
        /\ t = Py.lower (Py.strip (track s))
        /\ a = Py.lower (Py.strip (artist s))
        /\ t <> EmptyString /\ a <> EmptyString.
Proof. exact (liked_set_spec all_my_liked_songs_details t a). Qed.

(** X6: an ID is in the history-ID set exactly when it is the non-empty ID
    of a track read from the history playlist. *)
Theorem history_ids_set_members
  (existing_all_recs_songs_details : list PlaylistTrack) (id : string) :
  id ∈ all_recs_history_track_ids_set existing_all_recs_songs_details
  <-> id <> EmptyString /\ id ∈ map pt_id existing_all_recs_songs_details.
Proof.
  unfold all_recs_history_track_ids_set.
  assert (Hgen : forall l (acc : gset string),
            id ∈ fold_left
                   (fun acc song_detail =>
                      if Py.truthy (pt_id song_detail)
                      then acc ∪ {[ pt_id song_detail ]} else acc) l acc
            <-> id ∈ acc \/ (id <> EmptyString /\ id ∈ map pt_id l)).
  { induction l as [|s l IH]; intros acc; cbn [fold_left map].
    - split; [auto|]. intros [H|[_ H]]; [assumption|].
      apply elem_of_nil in H. contradiction.
    - rewrite IH, elem_of_cons.
      destruct (Py.truthy (pt_id s)) eqn:Htruthy.
      + rewrite elem_of_union, elem_of_singleton. split.
        * intros [[H|H]|[Hne H]]; [auto| |auto].
          right. split; [|auto]. intros Habs. rewrite H, Habs in *. discriminate.
        * intros [H|[Hne [H|H]]]; auto.
      + split.
        * intros [H|[Hne H]]; auto.
        * intros [H|[Hne [H|H]]]; auto.
          exfalso. rewrite <- H in Htruthy. destruct id; [contradiction|discriminate]. }
  rewrite Hgen. split; [|auto].
  intros [H|H]; [|assumption]. apply elem_of_empty in H. contradiction.
Qed.

(** ** Playlist lookup and creation *)

Section Lookup.

Lemma find_matches playlist_name user_id items :
  match find (fun playlist =>
                String.eqb (pl_name playlist) playlist_name
                && String.eqb (pl_owner playlist) user_id) items with
  | Some pl => pl ∈ items /\ matches playlist_name user_id pl
  | None => forall pl, pl ∈ items -> ~ matches playlist_name user_id pl
  end.
Proof.
  induction items as [|p ps IH]; simpl.
  - intros pl Hpl. apply elem_of_nil in Hpl. contradiction.
  - destruct (String.eqb_spec (pl_name p) playlist_name) as [Hn|Hn];
      destruct (String.eqb_spec (pl_owner p) user_id) as [Ho|Ho]; simpl;
      try (destruct (find _ ps) as [pl|];
           [ destruct IH as [Hin Hm]; split; [apply elem_of_cons; auto|assumption]
           | intros pl Hpl [Hmn Hmo];
             apply elem_of_cons in Hpl as [->|Hpl];
             [contradiction|exact (IH pl Hpl (conj Hmn Hmo))] ]).
    split; [apply elem_of_cons; auto|split; assumption].
Qed.

End Lookup.

Lemma playlist_lookup_spec
  (pages : list (list PlaylistObj)) (playlist_name user_id : string) :
  match fst (get_playlist_by_name_from pages playlist_name user_id) with
  | Some pl => pl ∈ List.concat pages /\ matches playlist_name user_id pl
  | None => forall pl, pl ∈ List.concat pages -> ~ matches playlist_name user_id pl
  end
  /\ List.length (snd (get_playlist_by_name_from pages playlist_name user_id))
     <= List.length pages - 1.
Proof.
  induction pages as [|items rest IH]; simpl.
  - split; [|lia]. intros pl Hpl. apply elem_of_nil in Hpl. contradiction.
  - pose proof (find_matches playlist_name user_id items) as Hfind.
    destruct (find _ items) as [pl|]; simpl.
    + destruct Hfind as [Hin Hm]. split; [|lia].
      split; [apply elem_of_app; auto|assumption].
    + destruct rest as [|r rest'].
      * simpl. split; [|lia]. intros pl Hpl. rewrite app_nil_r in Hpl. auto.
      * destruct IH as [IHres IHlen].
        destruct (get_playlist_by_name_from (r :: rest') playlist_name user_id)
          as [res ev]. simpl in *.
        split; [|lia].
        destruct res as [pl|].
        -- destruct IHres as [Hin Hm]. split; [apply elem_of_app; auto|assumption].
        -- intros pl Hpl. apply elem_of_app in Hpl as [Hpl|Hpl]; auto.
Qed.

(** X7: [get_playlist_by_name] returns a playlist of the listing whose name
    and owner are the ones asked for, or [None] when no playlist on any page
    matches; it asks for a further page at most once per page after the
    first. *)
Theorem get_playlist_by_name_finds_match
  (pages : list (list PlaylistObj)) (playlist_name user_id : string) :
  match fst (get_playlist_by_name_from pages playlist_name user_id) with
  | Some pl => pl ∈ List.concat pages /\ matches playlist_name user_id pl
  | None => forall pl, pl ∈ List.concat pages -> ~ matches playlist_name user_id pl
  end
  /\ List.length (snd (get_playlist_by_name_from pages playlist_name user_id))
     <= List.length pages - 1.
Proof. exact (playlist_lookup_spec pages playlist_name user_id). Qed.

(** X8: [get_or_create_playlist_id] creates a playlist only when the
    listing holds none with that name and owner: with a match it returns the
    ID of a matching playlist and sends no create request; without one it
    sends exactly one, as its last call, and returns the new ID, or [None]
    when the creation raises.  When the listing itself raises, so does the
    function, and nothing is created. *)
Theorem get_or_create_creates_only_when_missing
  (w : World) (n : nat) (user_id playlist_name : string) :
  let result := get_or_create_playlist_id w n user_id playlist_name in
  match w_user_playlists w n with
  | None => result = (Raises, [CallUserPlaylists])
  | Some pages =>
      match fst (get_playlist_by_name_from pages playlist_name user_id) with
      | Some pl =>
          fst result = Returns (Some (pl_id pl))
          /\ matches playlist_name user_id pl
          /\ List.filter is_create (snd result) = []
      | None =>
          fst result = Returns (w_playlist_create w playlist_name)
          /\ (forall pl, pl ∈ List.concat pages -> ~ matches playlist_name user_id pl)
          /\ List.filter is_create (snd result) = [CallPlaylistCreate playlist_name]
          /\ last (snd result) = Some (CallPlaylistCreate playlist_name)
      end
  end.
Proof.
  intros result. subst result.
  unfold get_or_create_playlist_id, get_playlist_by_name.
  destruct (w_user_playlists w n) as [pages|]; [|reflexivity].
  pose proof (playlist_lookup_spec pages playlist_name user_id) as [Hres _].
  assert (Hnext : List.filter is_create
                    (snd (get_playlist_by_name_from pages playlist_name user_id)) = []).
  { clear Hres. induction pages as [|items rest IH]; simpl; [reflexivity|].
    destruct (find _ items); [reflexivity|].
    destruct rest as [|r rest']; [reflexivity|].
    destruct (get_playlist_by_name_from (r :: rest') playlist_name user_id) as [res ev].
    simpl in *. assumption. }
  destruct (get_playlist_by_name_from pages playlist_name user_id) as [[pl|] ev];
    cbn [fst snd] in *.
  - destruct Hres as [_ Hm]. repeat split; try apply Hm. assumption.
  - repeat split; try assumption.
    + change (List.filter is_create
                ((CallUserPlaylists :: ev) ++ [CallPlaylistCreate playlist_name])
              = [CallPlaylistCreate playlist_name]).
      rewrite List.filter_app. cbn [List.filter is_create]. rewrite Hnext. reflexivity.
    + change (last ((CallUserPlaylists :: ev) ++ [CallPlaylistCreate playlist_name])
              = Some (CallPlaylistCreate playlist_name)).
      apply last_snoc.
Qed.

(** ** The oracle call: what is sent *)

(** X9: [get_gemini_recommendations_google_ai] sends nothing and returns no
    suggestion and no text when the API key is missing, the history is
    empty, or the last message is not a user message.  Whatever it sends is
    the whole history, one part per message, with the role "assistant"
    renamed to "model". *)
Theorem oracle_request_guards
  (json_loads : string -> option json) (repr : json -> string)
  (w : World) (attempt : nat) (api_key : option string) (history : list Message) :
  (Py.truthy_opt api_key = false
   \/ history = []
   \/ (exists m, last history = Some m /\ role m <> user) ->
   get_gemini_recommendations_google_ai json_loads repr w attempt api_key history
   = (([], None), []))
  /\ (forall sent,
        CallGenerateContent sent
          ∈ snd (get_gemini_recommendations_google_ai
                   json_loads repr w attempt api_key history) ->
        map parts sent = map (fun m => [content m]) history
        /\ map a_role sent
           = map (fun m => match role m with assistant => model | r => r end) history
        /\ Forall (fun m => a_role m <> assistant) sent).
Proof.
  split.
  - intros Hguard. unfold get_gemini_recommendations_google_ai.
    destruct (Py.truthy_opt api_key); [|reflexivity]. cbn [negb].
    destruct Hguard as [Habs | [-> | (m & Hlast & Hrole)]];
      [discriminate|reflexivity|].
    rewrite (last_adapted history m Hlast).
    destruct (decide (a_role (adapt m) = user)) as [Huser|]; [|reflexivity].
    exfalso. unfold adapt in Huser. simpl in Huser.
    destruct (role m); simpl in Huser; congruence.
  - intros sent Hin. unfold get_gemini_recommendations_google_ai in Hin.
    destruct (negb (Py.truthy_opt api_key));
      [apply elem_of_nil in Hin; contradiction|].
    destruct (last (map adapt history)) as [m|];
      [|apply elem_of_nil in Hin; contradiction].
    destruct (decide (a_role m = user));
      [|apply elem_of_nil in Hin; contradiction].
    assert (sent = map adapt history) as ->.
    { destruct (w_generate_content w attempt (map adapt history)); simpl in Hin;
        apply list_elem_of_singleton in Hin; congruence. }
    rewrite !map_map. split; [reflexivity|]. split.
    + apply map_ext. intros msg. unfold adapt. simpl. destruct (role msg); reflexivity.
    + apply Forall_map, Forall_forall. intros msg _. unfold adapt. simpl.
      destruct (role msg); simpl; discriminate.
Qed.

(** ** Catalog resolution of a batch *)

(** X10: [verify_and_filter_songs_on_spotify] makes one search per
    suggestion with a non-empty title and artist and none for the others,
    and returns at most one candidate per search: the number of candidates
    is at most the number of searches, which is at most the number of
    suggestions. *)
Theorem verify_one_search_per_suggestion
  (search : nat -> string -> SearchOutcome) (i : nat)
  (recommended_songs_details : list Song) :
  let result := verify_and_filter_songs_on_spotify search i recommended_songs_details in
  List.length (snd result)
  = List.length
      (List.filter (fun s => Py.truthy (track s) && Py.truthy (artist s))
                   recommended_songs_details)
  /\ Forall (fun e => is_search e = true) (snd result)
  /\ List.length (fst result) <= List.length (snd result)
  /\ List.length (snd result) <= List.length recommended_songs_details.
Proof.
  cbv zeta. revert i.
  induction recommended_songs_details as [|s recs IH]; intros i; simpl.
  - repeat split; [constructor|lia|lia].
  - destruct (IH (S i)) as (Hcount & Hsearch & Hle & Hle').
    destruct (verify_and_filter_songs_on_spotify search (S i) recs) as [more ev].
    simpl in *.
    destruct (Py.truthy (track s)), (Py.truthy (artist s)); simpl;
      try (repeat split; [assumption|assumption|lia|lia]).
    repeat split; [lia|constructor; [reflexivity|assumption]| |lia].
    rewrite length_app.
    assert (List.length (resolve (search i (search_query (track s) (artist s)))) <= 1).
    { unfold resolve. destruct (search i _) as [|[|t items]]; simpl; try lia.
      destruct (song_info_of t); simpl; lia. }
    lia.
Qed.

(** X11: resolving a batch is resolving its suggestions one after the
    other: a suggestion that is malformed, not found, or whose search raises
    changes nothing for the suggestions after it. *)
Theorem verify_splits_over_batches
  (search : nat -> string -> SearchOutcome) (i : nat) (first_part second_part : list Song) :
  verify_and_filter_songs_on_spotify search i (first_part ++ second_part)
  = (fst (verify_and_filter_songs_on_spotify search i first_part)
     ++ fst (verify_and_filter_songs_on_spotify search
               (i + List.length first_part) second_part),
     snd (verify_and_filter_songs_on_spotify search i first_part)
     ++ snd (verify_and_filter_songs_on_spotify search
               (i + List.length first_part) second_part)).
Proof.
  revert i. induction first_part as [|s l IH]; intros i.
  - cbn [app List.length]. rewrite Nat.add_0_r.
    destruct (verify_and_filter_songs_on_spotify search i second_part). reflexivity.
  - cbn [app List.length verify_and_filter_songs_on_spotify].
    rewrite (IH (S i)).
    replace (i + S (List.length l)) with (S i + List.length l) by lia.
    destruct (verify_and_filter_songs_on_spotify search (S i) l) as [more ev].
    destruct (verify_and_filter_songs_on_spotify search (S i + List.length l) second_part)
      as [more2 ev2].
    cbn [fst snd].
    destruct (negb _ || negb _); cbn [fst snd]; [reflexivity|].
    rewrite app_assoc. reflexivity.
Qed.

(** ** The acceptance test *)

Section AcceptanceTest.

Context (cfg : Config) (liked : gset (string * string)) (history_ids : gset string).

Lemma already_collected_iff details e :
  is_already_collected_this_session details e = true <-> si_id e ∈ map si_id details.
Proof.
  unfold is_already_collected_this_session.
  induction details as [|d ds IH]; simpl.
  - split; [discriminate|]. intros H. apply elem_of_nil in H. contradiction.
  - rewrite orb_true_iff, IH, elem_of_cons.
    destruct (String.eqb_spec (si_id d) (si_id e)) as [Heq|Hne].
    + split; auto.
    + split; [intros [H|H]; [discriminate|auto]|].
      intros [H|H]; [congruence|auto].
Qed.

Lemma too_popular_iff e : is_too_popular cfg e = false <-> popularity_ok cfg e.
Proof.
  unfold is_too_popular, popularity_ok.
  destruct (MAX_POPULARITY_THRESHOLD cfg), (si_popularity e); try tauto.
  rewrite Z.gtb_ltb, Z.ltb_ge. reflexivity.
Qed.

Lemma too_old_iff e : is_too_old cfg e = false <-> release_year_ok cfg e.
Proof.
  unfold is_too_old, release_year_ok.
  destruct (MIN_RELEASE_YEAR cfg), (si_release_year e); try tauto.
  rewrite Z.ltb_ge. reflexivity.
Qed.

End AcceptanceTest.

Lemma accepted_spec
  (cfg : Config) (liked : gset (string * string)) (history_ids : gset string)
  (collected_details : list SongInfo) (e : SongInfo) :
  accepted cfg liked history_ids collected_details e = true
  <-> (looked_up e ∉ liked)
      /\ (si_id e ∉ history_ids)
      /\ (si_id e ∉ map si_id collected_details)
      /\ popularity_ok cfg e /\ release_year_ok cfg e.
Proof.
  unfold accepted, is_liked, is_in_all_recs_playlist_history.
  rewrite !andb_true_iff, !negb_true_iff, !bool_decide_eq_false.
  rewrite too_popular_iff, too_old_iff.
  rewrite <- (already_collected_iff collected_details e).
  rewrite not_true_iff_false. unfold looked_up. tauto.
Qed.

(** X12: a candidate passes the acceptance test exactly when its
    lower-cased title and artist are not in the liked-songs set, its ID is
    neither in the history-ID set nor the ID of an entry collected so far,
    its popularity is unknown or at most the threshold (a popularity equal
    to the threshold passes) and its release year is unknown or at least the
    minimum (a year equal to the minimum passes). *)
Theorem accepted_iff
  (cfg : Config) (liked : gset (string * string)) (history_ids : gset string)
  (collected_details : list SongInfo) (e : SongInfo) :
  accepted cfg liked history_ids collected_details e = true
  <-> (looked_up e ∉ liked)
      /\ (si_id e ∉ history_ids)
      /\ (si_id e ∉ map si_id collected_details)
      /\ popularity_ok cfg e /\ release_year_ok cfg e.
Proof. exact (accepted_spec cfg liked history_ids collected_details e). Qed.

(** X13: the list of reasons printed for a skipped candidate is empty
    exactly when the candidate is accepted, so a skipped candidate always
    has at least one reason and the "unknown" fallback of the message is
    never printed. *)
Theorem skipped_candidate_has_a_reason
  (cfg : Config) (liked : gset (string * string)) (history_ids : gset string)
  (collected_details : list SongInfo) (e : SongInfo) :
  reasons cfg liked history_ids collected_details e = []
  <-> accepted cfg liked history_ids collected_details e = true.
Proof.
  unfold reasons, accepted.
  destruct (is_liked liked e), (is_in_all_recs_playlist_history history_ids e),
    (is_already_collected_this_session collected_details e),
    (is_too_popular cfg e), (is_too_old cfg e); simpl;
    split; intros H; try reflexivity; discriminate H.
Qed.

(** ** Order and completeness of a batch *)

Section Batch.

Context (cfg : Config) (liked : gset (string * string)) (history_ids : gset string).

Lemma accept_batch_appends batch : forall uris details,
  exists added,
    accept_batch cfg liked history_ids batch uris details
    = (uris ++ map si_uri added, details ++ added)
    /\ added `sublist_of` batch.
Proof.
  induction batch as [|e rest IH]; intros uris details; simpl.
  - exists []. rewrite !app_nil_r. split; [reflexivity|constructor].
  - destruct (_ <=? _)%nat.
    { exists []. rewrite !app_nil_r. split; [reflexivity|apply sublist_nil_l]. }
    destruct (accepted cfg liked history_ids details e).
    + destruct (IH (uris ++ [si_uri e]) (details ++ [e])) as (added & Heq & Hsub).
      exists (e :: added). rewrite Heq, <- !app_assoc. split; [reflexivity|].
      apply sublist_skip. assumption.
    + destruct (IH uris details) as (added & Heq & Hsub).
      exists added. split; [assumption|]. apply sublist_cons. assumption.
Qed.

Lemma accepted_split details e :
  accepted cfg liked history_ids details e
  = passes_filters cfg liked history_ids e
    && negb (is_already_collected_this_session details e).
Proof.
  unfold accepted, passes_filters.
  destruct (is_liked liked e), (is_in_all_recs_playlist_history history_ids e),
    (is_already_collected_this_session details e),
    (is_too_popular cfg e), (is_too_old cfg e); reflexivity.
Qed.

End Batch.

(** X14: the acceptance loop only appends: the collected entries after a
    batch are the entries collected before, followed by some entries of the
    batch in the order of the batch, and the URI list grows by the URIs of
    the same entries in the same order. *)
Theorem accept_batch_keeps_order
  (cfg : Config) (liked : gset (string * string)) (history_ids : gset string)
  (batch : list SongInfo) (uris : list string) (details : list SongInfo) :
  exists added,
    accept_batch cfg liked history_ids batch uris details
    = (uris ++ map si_uri added, details ++ added)
    /\ added `sublist_of` batch.
Proof. exact (accept_batch_appends cfg liked history_ids batch uris details). Qed.

(** X15: the acceptance loop drops no candidate it could take: if the
    target is still not reached after a batch, every candidate of the batch
    that is not liked, not in the history, not too popular and not too old
    has its catalog ID among the collected entries. *)
Theorem accept_batch_takes_all_it_can
  (cfg : Config) (liked : gset (string * string)) (history_ids : gset string)
  (batch : list SongInfo) (uris : list string) (details : list SongInfo) :
  List.length uris = List.length details ->
  List.length (snd (accept_batch cfg liked history_ids batch uris details))
  < TARGET_NEW_SONGS_COUNT cfg ->
  forall e, e ∈ batch ->
    passes_filters cfg liked history_ids e = true ->
    si_id e ∈ map si_id (snd (accept_batch cfg liked history_ids batch uris details)).
Proof.
  revert uris details.
  induction batch as [|c rest IH]; intros uris details Hlen Hroom e He Hpass.
  { apply elem_of_nil in He. contradiction. }
  assert (Hkeep : forall uris' details' x,
            x ∈ map si_id details' ->
            x ∈ map si_id (snd (accept_batch cfg liked history_ids rest uris' details'))).
  { intros uris' details' x Hx.
    destruct (accept_batch_appends cfg liked history_ids rest uris' details')
      as (added & -> & _).
    cbn [snd]. rewrite map_app. apply elem_of_app. auto. }
  simpl in *.
  destruct (Nat.leb_spec (TARGET_NEW_SONGS_COUNT cfg) (List.length uris)) as [Hfull|_].
  { simpl in Hroom. lia. }
  rewrite accepted_split in *.
  apply elem_of_cons in He as [->|He].
  - rewrite Hpass in *. cbn [andb] in *.
    destruct (is_already_collected_this_session details c) eqn:Hdup; cbn [negb] in *.
    + apply Hkeep. apply already_collected_iff. assumption.
    + apply Hkeep. rewrite map_app. apply elem_of_app. right.
      apply elem_of_cons. auto.
  - destruct (passes_filters cfg liked history_ids c
              && negb (is_already_collected_this_session details c)).
    + apply IH; [rewrite !length_app; simpl; lia|assumption..].
    + apply IH; assumption.
Qed.

(** X16: a candidate whose title and artist differ from a liked song's only
    in letter case is rejected as liked, provided the liked song's title and
    artist are non-empty and carry no surrounding whitespace. *)
Theorem liked_song_rejected_whatever_the_case
  (cfg : Config) (all_my_liked_songs_details : list Song) (history_ids : gset string)
  (collected_details : list SongInfo) (s : Song) (e : SongInfo) :
  s ∈ all_my_liked_songs_details ->
  Py.strip (track s) = track s -> Py.strip (artist s) = artist s ->
  track s <> EmptyString -> artist s <> EmptyString ->
  Py.lower (si_track e) = Py.lower (track s) ->
  Py.lower (si_artist e) = Py.lower (artist s) ->
  is_liked (all_my_liked_songs_set all_my_liked_songs_details) e = true
  /\ accepted cfg (all_my_liked_songs_set all_my_liked_songs_details)
       history_ids collected_details e = false.
Proof.
  intros Hs Ht Ha Hnt Hna Het Hea.
  assert (Hliked : is_liked (all_my_liked_songs_set all_my_liked_songs_details) e = true).
  { unfold is_liked. apply bool_decide_eq_true.
    apply liked_set_spec. exists s. rewrite Ht, Ha, Het, Hea.
    split; [assumption|]. split; [reflexivity|]. split; [reflexivity|].
    split; [destruct (track s)|destruct (artist s)];
      try contradiction; cbn [Py.lower]; discriminate. }
  split; [assumption|].
  unfold accepted. rewrite Hliked. reflexivity.
Qed.

(** ** The loop, one pass at a time *)

Section Passes.

Context (json_loads : string -> option json) (repr : json -> string).
Context (w : World) (cfg : Config).
Context (liked : gset (string * string)) (history_ids : gset string).

Local Abbreviation body := (attempt_body json_loads repr w cfg liked history_ids).
Local Abbreviation loop_from := (attempts_from json_loads repr w cfg liked history_ids).
Local Abbreviation loop_upto :=
  (collection_loop_upto json_loads repr w cfg liked history_ids).

(** The body breaks only with the target reached, and with the target
    reached it breaks at once. *)
Lemma break_means_reached attempt st st' :
  body attempt st = Break st' ->
  target_reached cfg (collected_new_songs_for_playlist_uris st') = true.
Proof.
  unfold attempt_body.
  destruct (target_reached cfg (collected_new_songs_for_playlist_uris st)) eqn:Hfull.
  { intros [= <-]. assumption. }
  destruct (get_gemini_recommendations_google_ai _ _ _ _ _ _) as [[recs raw] ev].
  destruct recs as [|r recs]; [discriminate|].
  destruct (verify_and_filter_songs_on_spotify _ _ _) as [batch ev2].
  destruct (accept_batch _ _ _ _ _ _) as [uris details].
  destruct (target_reached cfg uris) eqn:Hafter; [|discriminate].
  intros [= <-]. assumption.
Qed.

Lemma reached_means_break attempt st :
  target_reached cfg (collected_new_songs_for_playlist_uris st) = true ->
  body attempt st = Break st.
Proof. intros H. unfold attempt_body. rewrite H. reflexivity. Qed.

Lemma attempts_from_snoc remaining : forall first st,
  loop_from first (S remaining) st
  = flow_state (body (first + remaining) (loop_from first remaining st)).
Proof.
  induction remaining as [|k IH]; intros first st.
  - rewrite Nat.add_0_r. simpl. destruct (body first st); reflexivity.
  - change (loop_from first (S (S k)) st)
      with (match body first st with
            | Break st' => st'
            | Next st' => loop_from (S first) (S k) st'
            end).
    change (loop_from first (S k) st)
      with (match body first st with
            | Break st' => st'
            | Next st' => loop_from (S first) k st'
            end).
    destruct (body first st) as [st'|st'] eqn:Hb.
    + rewrite IH. replace (first + S k) with (S first + k) by lia. reflexivity.
    + rewrite (reached_means_break _ st' (break_means_reached first st st' Hb)).
      reflexivity.
Qed.

Lemma body_extends attempt st : extends st (flow_state (body attempt st)).
Proof.
  pose proof (history_append_only json_loads repr w cfg liked history_ids attempt st)
    as Hhist.
  unfold extends. revert Hhist. unfold attempt_body.
  destruct (target_reached _ _); [intros _; repeat split; reflexivity|].
  destruct (get_gemini_recommendations_google_ai _ _ _ _ _ _) as [[recs raw] ev].
  destruct recs as [|r recs].
  { cbn [flow_state]. intros Hhist. repeat split; try reflexivity; try assumption.
    apply prefix_app_r. reflexivity. }
  destruct (verify_and_filter_songs_on_spotify _ _ _) as [batch ev2].
  destruct (accept_batch_appends cfg liked history_ids batch
              (collected_new_songs_for_playlist_uris st)
              (collected_new_songs_for_playlist_details st)) as (added & -> & _).
  destruct (target_reached _ _); cbn [flow_state]; intros Hhist;
    repeat split; try assumption; apply prefix_app_r; reflexivity.
Qed.

Lemma extends_trans st1 st2 st3 : extends st1 st2 -> extends st2 st3 -> extends st1 st3.
Proof.
  intros (H1 & H2 & H3 & H4 & H5) (K1 & K2 & K3 & K4 & K5).
  repeat split; etransitivity; eassumption.
Qed.

Lemma loop_upto_extends sample k k' :
  k <= k' -> extends (loop_upto k sample) (loop_upto k' sample).
Proof.
  induction 1 as [|k' Hle IH].
  - repeat split; reflexivity.
  - eapply extends_trans; [exact IH|].
    unfold collection_loop_upto. rewrite attempts_from_snoc. apply body_extends.
Qed.

(** The history after a pass: unchanged, or the history sent followed by
    the answer, if any. *)
Lemma body_history attempt st :
  conversation_history (flow_state (body attempt st)) = conversation_history st
  \/ exists raw,
       conversation_history (flow_state (body attempt st))
       = append_model_response (history_sent attempt st) raw.
Proof.
  unfold attempt_body.
  destruct (target_reached _ _); [left; reflexivity|]. right.
  fold (history_sent attempt st).
  destruct (get_gemini_recommendations_google_ai _ _ _ _ _ _) as [[recs raw] ev].
  exists raw.
  destruct recs as [|r recs]; [reflexivity|].
  destruct (verify_and_filter_songs_on_spotify _ _ _) as [batch ev2].
  destruct (accept_batch _ _ _ _ _ _) as [uris details].
  destruct (target_reached _ _); reflexivity.
Qed.

End Passes.

(** X17: the loop with a budget of [k + 1] attempts is the loop with a
    budget of [k] followed by one more pass through the body, and that pass
    changes nothing when the target was already reached. *)
Theorem loop_budget_one_more_pass
  (json_loads : string -> option json) (repr : json -> string)
  (w : World) (cfg : Config)
  (liked : gset (string * string)) (history_ids : gset string)
  (sample : list Song) (k : nat) :
  let st := collection_loop_upto json_loads repr w cfg liked history_ids k sample in
  collection_loop_upto json_loads repr w cfg liked history_ids (S k) sample
  = flow_state (attempt_body json_loads repr w cfg liked history_ids k st)
  /\ (TARGET_NEW_SONGS_COUNT cfg
      <= List.length (collected_new_songs_for_playlist_uris st) ->
      collection_loop_upto json_loads repr w cfg liked history_ids (S k) sample = st).
Proof.
  intros st. subst st. unfold collection_loop_upto.
  rewrite attempts_from_snoc. cbn [Nat.add]. split; [reflexivity|].
  intros Hfull. rewrite reached_means_break; [reflexivity|].
  unfold target_reached. apply Nat.leb_le. assumption.
Qed.

(** X18: a larger attempt budget only adds: the collected entries and
    URIs, the conversation history, the recorded suggestions and the calls
    made with a budget of [k] are initial parts of those with any budget
    [k' >= k]. *)
Theorem larger_budget_only_appends
  (json_loads : string -> option json) (repr : json -> string)
  (w : World) (cfg : Config)
  (liked : gset (string * string)) (history_ids : gset string)
  (sample : list Song) (k k' : nat) :
  k <= k' ->
  let st := collection_loop_upto json_loads repr w cfg liked history_ids k sample in
  let st' := collection_loop_upto json_loads repr w cfg liked history_ids k' sample in
  collected_new_songs_for_playlist_uris st
    `prefix_of` collected_new_songs_for_playlist_uris st'
  /\ collected_new_songs_for_playlist_details st
       `prefix_of` collected_new_songs_for_playlist_details st'
  /\ conversation_history st `prefix_of` conversation_history st'
  /\ all_gemini_suggestions_this_session_raw_details st
       `prefix_of` all_gemini_suggestions_this_session_raw_details st'
  /\ calls st `prefix_of` calls st'.
Proof.
  intros Hle st st'.
  exact (loop_upto_extends json_loads repr w cfg liked history_ids sample k k' Hle).
Qed.

(** ** The shape of the conversation *)

Section Conversation.

Context (json_loads : string -> option json) (repr : json -> string).
Context (w : World) (cfg : Config).
Context (liked : gset (string * string)) (history_ids : gset string).

Lemma no_adjacent_models_snoc_user roles :
  no_adjacent_models roles = true -> no_adjacent_models (roles ++ [user]) = true.
Proof.
  induction roles as [|r1 roles IH]; [reflexivity|].
  destruct roles as [|r2 rest].
  - intros _. simpl. rewrite andb_false_r. reflexivity.
  - cbn [app no_adjacent_models] in *. rewrite !andb_true_iff.
    intros [H1 H2]. split; [assumption|]. apply IH. assumption.
Qed.

Lemma no_adjacent_models_snoc_model roles :
  no_adjacent_models roles = true -> last roles = Some user ->
  no_adjacent_models (roles ++ [model]) = true.
Proof.
  induction roles as [|r1 roles IH]; [discriminate 2|].
  destruct roles as [|r2 rest].
  - intros _ [= ->]. reflexivity.
  - cbn [app no_adjacent_models] in *. rewrite !andb_true_iff.
    intros [H1 H2] Hlast. split; [assumption|]. apply IH; assumption.
Qed.

Lemma last_role history m :
  last history = Some m -> last (map role history) = Some (role m).
Proof.
  induction history as [|x [|y history] IH]; simpl in *; intros H.
  - discriminate.
  - congruence.
  - auto.
Qed.

Lemma history_shape_snoc_user sample h c :
  history_shape sample h ->
  history_shape sample (h ++ [ {| role := user; content := c |} ]).
Proof.
  intros (Hhd & Hadj & Hrole & Htext). repeat split.
  - destruct h; [discriminate|assumption].
  - rewrite map_app. apply no_adjacent_models_snoc_user. assumption.
  - apply Forall_app. split; [assumption|]. repeat constructor. discriminate.
  - apply Forall_app. split; [assumption|]. repeat constructor. discriminate.
Qed.

Lemma history_shape_response sample h raw :
  history_shape sample h -> ends_with_user h ->
  history_shape sample (append_model_response h raw).
Proof.
  intros Hshape (m & Hlast & Hm). unfold append_model_response.
  destruct raw as [raw|]; [|assumption].
  destruct (Py.truthy raw) eqn:Htruthy; [|assumption].
  destruct Hshape as (Hhd & Hadj & Hrole & Htext). repeat split.
  - destruct h; [discriminate|assumption].
  - rewrite map_app. apply no_adjacent_models_snoc_model; [assumption|].
    rewrite (last_role h m Hlast), Hm. reflexivity.
  - apply Forall_app. split; [assumption|]. repeat constructor. discriminate.
  - apply Forall_app. split; [assumption|]. repeat constructor.
    intros _. exists raw. split; [reflexivity|]. intros ->. discriminate.
Qed.

Lemma body_keeps_shape sample attempt st :
  history_shape sample (conversation_history st) ->
  (attempt = 0 -> ends_with_user (conversation_history st)) ->
  history_shape sample
    (conversation_history
       (flow_state (attempt_body json_loads repr w cfg liked history_ids attempt st))).
Proof.
  intros Hshape Hfirst.
  destruct (body_history json_loads repr w cfg liked history_ids attempt st)
    as [-> | [raw ->]]; [assumption|].
  apply history_shape_response.
  - unfold history_sent. destruct (0 <? attempt)%nat; [|assumption].
    apply history_shape_snoc_user. assumption.
  - apply history_sent_ends_with_user. assumption.
Qed.

End Conversation.

(** X19: whatever the oracle answers and however many attempts are made,
    the conversation history opens with the initial user prompt, holds no
    message with the role "assistant", holds model messages only with a
    non-empty answer text, and never holds two model messages in a row. *)
Theorem conversation_history_shape
  (json_loads : string -> option json) (repr : json -> string)
  (w : World) (cfg : Config)
  (liked : gset (string * string)) (history_ids : gset string)
  (sample : list Song) (budget : nat) :
  history_shape sample
    (conversation_history
       (collection_loop_upto json_loads repr w cfg liked history_ids budget sample)).
Proof.
  assert (Hinit : history_shape sample (conversation_history (initial_state sample))).
  { repeat split; repeat constructor; discriminate. }
  destruct budget as [|k]; [exact Hinit|].
  assert (Hgen : forall k,
            history_shape sample
              (conversation_history
                 (collection_loop_upto json_loads repr w cfg liked history_ids k sample))
            /\ (k = 0 ->
                ends_with_user
                  (conversation_history
                     (collection_loop_upto json_loads repr w cfg liked history_ids
                        k sample)))).
  { intros n. induction n as [|n [IHshape IHfirst]].
    - split; [exact Hinit|]. intros _. eexists. split; reflexivity.
    - split; [|discriminate].
      unfold collection_loop_upto in *. rewrite attempts_from_snoc.
      apply body_keeps_shape; assumption. }
  apply Hgen.
Qed.

(** ** Runs that end early *)

(** X20: with the configuration present, a run whose user has no liked
    song (or whose first page of saved tracks cannot be read) exits with
    code 0 after reading the saved tracks: it looks up no playlist and asks
    the oracle nothing; a run whose profile request raises ends there. *)
Theorem run_without_liked_songs
  (json_loads : string -> option json) (repr : json -> string)
  (w : World) (cfg : Config) :
  config_present w = true ->
  (w_me w = None -> main json_loads repr w cfg = (Uncaught, [CallMe]))
  /\ (forall uid,
        w_me w = Some uid ->
        fst (get_all_liked_songs_details w) = [] ->
        main json_loads repr w cfg
        = (Exit 0, CallMe :: snd (get_all_liked_songs_details w))).
Proof.
  intros Hcfg. split.
  - intros Hme. unfold main, startup. rewrite Hcfg, Hme. reflexivity.
  - intros uid Hme Hnone. unfold main, startup. rewrite Hcfg, Hme.
    unfold bind, call, call_unguarded. cbn [negb fst snd].
    rewrite Hnone. cbn [stop app]. rewrite !app_nil_r. reflexivity.
Qed.

(** X21: with a target of zero songs or a budget of zero attempts the loop
    makes no call at all and collects nothing. *)
Theorem nothing_to_do_makes_no_call
  (json_loads : string -> option json) (repr : json -> string)
  (w : World) (cfg : Config)
  (liked : gset (string * string)) (history_ids : gset string)
  (sample : list Song) :
  TARGET_NEW_SONGS_COUNT cfg = 0 \/ MAX_GEMINI_ATTEMPTS cfg = 0 ->
  collection_loop json_loads repr w cfg liked history_ids sample = initial_state sample.
Proof.
  intros Hzero. unfold collection_loop, collection_loop_upto.
  destruct Hzero as [Hn|Ha].
  - destruct (MAX_GEMINI_ATTEMPTS cfg); [reflexivity|].
    cbn [attempts_from]. unfold attempt_body, target_reached. rewrite Hn. reflexivity.
  - rewrite Ha. reflexivity.
Qed.

(** ** A run in which every write succeeds *)

Section FullSync.

Lemma filter_no_write playlist_id ev :
  no_write ev ->
  List.filter (fun e => bool_decide (request_playlist e = Some playlist_id)) ev = [].
Proof.
  induction 1 as [|e ev He Hev IH]; [reflexivity|]. simpl. rewrite IH.
  destruct e; try reflexivity; discriminate He.
Qed.

Lemma filter_addressed playlist_id ev :
  Forall (fun e => request_playlist e = Some playlist_id) ev ->
  List.filter (fun e => bool_decide (request_playlist e = Some playlist_id)) ev = ev.
Proof.
  induction 1 as [|e ev He Hev IH]; [reflexivity|]. simpl.
  rewrite IH, bool_decide_eq_true_2 by assumption. reflexivity.
Qed.

Lemma filter_addressed_elsewhere playlist_id other ev :
  other <> playlist_id ->
  Forall (fun e => request_playlist e = Some other) ev ->
  List.filter (fun e => bool_decide (request_playlist e = Some playlist_id)) ev = [].
Proof.
  intros Hne. induction 1 as [|e ev He Hev IH]; [reflexivity|]. simpl.
  rewrite IH, bool_decide_eq_false_2; [reflexivity|]. rewrite He. congruence.
Qed.

Lemma sync_step_success w n pid track_uris replace :
  Py.truthy pid = true ->
  (forall k, w_write_raises w n k = false) ->
  w_playlist_url w pid <> None ->
  sync_step w n (Some pid) track_uris replace
  = (inr tt,
     snd (update_playlist_items (w_write_raises w n) (Some pid) track_uris replace)
     ++ [CallPlaylist pid]).
Proof.
  intros Hpid Hnone Hurl. unfold sync_step, bind, call, call_unguarded.
  destruct (update_effect (w_write_raises w n) pid track_uris [] replace Hpid Hnone)
    as (Hok & _).
  destruct (update_playlist_items _ _ _ _) as [ok ev]. cbn [fst snd] in *. subst ok.
  destruct (w_playlist_url w pid); [reflexivity|contradiction].
Qed.

End FullSync.

(** X22: when both playlists are available, no write raises and both
    playlist pages can be read afterwards, the script runs to its last
    statement; the requests it sent leave the latest-batch playlist holding
    exactly the collected URIs, in acceptance order, and the history
    playlist holding what it held before followed by the same URIs. *)
Theorem successful_sync_fills_both_playlists
  (w : World) (cfg : Config) (p : Prepared)
  (history_ids : gset string) (st : LoopState)
  (new_id all_id : string) (ev : list Event) (new_before all_before : list string) :
  state_ok cfg history_ids st ->
  collected_new_songs_for_playlist_details st <> [] ->
  get_or_create_playlist_id w 1 (user_id p) NEW_PLAYLIST_NAME
  = (Returns (Some new_id), ev) ->
  all_recs_playlist_id p = Some all_id ->
  Py.truthy new_id = true -> Py.truthy all_id = true -> new_id <> all_id ->
  (forall n k, w_write_raises w n k = false) ->
  (forall pid, w_playlist_url w pid <> None) ->
  let uris := map si_uri (collected_new_songs_for_playlist_details st) in
  fst (playlist_sync w cfg p st) = inl ScriptFinished
  /\ playlist_content new_id new_before (snd (playlist_sync w cfg p st)) = uris
  /\ playlist_content all_id all_before (snd (playlist_sync w cfg p st))
     = all_before ++ uris.
Proof.
  intros Hok Hsome Hnew Hall Hnt Hat Hne Hwrites Hurls uris.
  assert (Hsync :
    playlist_sync w cfg p st
    = (inl ScriptFinished,
       ev ++ (snd (update_playlist_items (w_write_raises w 0) (Some new_id) uris true)
              ++ [CallPlaylist new_id])
          ++ (snd (update_playlist_items (w_write_raises w 1) (Some all_id) uris false)
              ++ [CallPlaylist all_id]))).
  { unfold playlist_sync.
    destruct (final_lists_whole cfg history_ids st Hok) as [-> ->]. fold uris.
    subst uris.
    destruct (collected_new_songs_for_playlist_details st) as [|d ds]; [contradiction|].
    cbn [map]. rewrite Hnew, Hall.
    unfold call_unguarded at 1. unfold bind. cbn [fst snd Py.truthy_opt].
    rewrite Hnt, Hat.
    rewrite !sync_step_success by auto.
    unfold ret, stop. cbn [fst snd]. rewrite !app_nil_r, <- !app_assoc. reflexivity. }
  rewrite Hsync. cbn [fst snd]. split; [reflexivity|].
  pose proof (get_or_create_no_write w 1 (user_id p) NEW_PLAYLIST_NAME) as Hev.
  rewrite Hnew in Hev. cbn [snd] in Hev.
  destruct (update_effect (w_write_raises w 0) new_id uris new_before true Hnt (Hwrites 0))
    as (_ & Hnew_after & Hnew_addr).
  destruct (update_effect (w_write_raises w 1) all_id uris all_before false Hat (Hwrites 1))
    as (_ & Hall_after & Hall_addr).
  unfold playlist_content. rewrite !List.filter_app.
  split.
  - rewrite (filter_no_write new_id ev Hev), (filter_addressed new_id _ Hnew_addr).
    rewrite (filter_addressed_elsewhere new_id all_id _ (not_eq_sym Hne) Hall_addr).
    cbn [List.filter request_playlist]. rewrite !bool_decide_eq_false_2 by discriminate.
    rewrite !app_nil_r. cbn [app]. exact Hnew_after.
  - rewrite (filter_no_write all_id ev Hev), (filter_addressed all_id _ Hall_addr).
    rewrite (filter_addressed_elsewhere all_id new_id _ Hne Hnew_addr).
    cbn [List.filter request_playlist]. rewrite !bool_decide_eq_false_2 by discriminate.
    rewrite !app_nil_r. cbn [app]. exact Hall_after.
Qed.

(** ** From a search hit to a candidate *)

(** X23: a search hit without any artist yields no candidate.  A hit with
    at least one artist and a release date that is absent or written in
    characters below U+0080 always yields one, carrying the hit's URI, ID,
    title and popularity and the name of its first artist. *)
Theorem search_hit_becomes_candidate (found_track : Track) :
  (tr_artists found_track = [] -> resolve (SearchItems [found_track]) = [])
  /\ (forall a others,
        tr_artists found_track = a :: others ->
        (forall date, tr_release_date found_track = Some date -> is_ascii date = true) ->
        exists e,
          resolve (SearchItems [found_track]) = [e]
          /\ si_uri e = tr_uri found_track /\ si_id e = tr_id found_track
          /\ si_track e = tr_name found_track
          /\ si_artist e = artist_name a
          /\ si_popularity e = tr_popularity found_track).
Proof.
  split.
  - intros Hnone. unfold resolve, song_info_of. rewrite Hnone.
    destruct (parse_release_year _); reflexivity.
  - intros a others Hartists Hdate. unfold resolve, song_info_of. rewrite Hartists.
    assert (Hyear : exists y, parse_release_year (tr_release_date found_track) = Returns y).
    { destruct (tr_release_date found_track) as [date|] eqn:Hd; [|eexists; reflexivity].
      specialize (Hdate date eq_refl).
      destruct (Py.int (Py.before_hyphen date)) as [y|] eqn:Hint.
      - unfold parse_release_year. rewrite Hint.
        destruct (Py.truthy date); eexists; reflexivity.
      - rewrite (parse_release_year_unparsable date Hdate Hint). eexists. reflexivity. }
    destruct Hyear as [y ->]. eexists. repeat split.
Qed.

(** * The theorems at work on the example runs *)

Section Witnesses.

Import Examples.

Local Abbreviation gold_info :=
  {| si_uri := "spotify:track:gold"; si_id := "gold"; si_track := "Gold";
     si_artist := "Artist B"; si_popularity := Some 10%Z;
     si_release_year := Some 2023%Z |}.

Lemma collected_set_filters_and_bound_witness :
  let collected :=
    collected_new_songs_for_playlist_details
      (collection_loop_upto json_loads repr prose_then_gold cfg_5_1 ∅ ∅ 5 []) in
  NoDup (map si_id collected) /\ List.length collected <= 1.
Proof.
  pose proof (collected_set_filters_and_bound
                json_loads repr prose_then_gold cfg_5_1 ∅ ∅ [] 5) as H.
  cbv zeta in H. destruct H as (_ & Hd & Hs & _).
  split; [exact Hd|exact Hs].
Defined.

Lemma oracle_calls_within_budget_witness :
  Py.truthy_opt (GOOGLE_AI_API_KEY prose_then_gold) = true
  /\ oracle_calls
       (calls (collection_loop json_loads repr prose_then_gold cfg_5_1 ∅ ∅ []))
     <= MAX_GEMINI_ATTEMPTS cfg_5_1.
Proof.
  split; [reflexivity|].
  exact (proj1 (oracle_calls_within_budget
                  json_loads repr prose_then_gold cfg_5_1 ∅ ∅ [] eq_refl)).
Defined.

Lemma release_year_is_leading_year_witness :
  (exists e, song_info_of gold_track = Returns e /\ si_release_year e = Some 2023%Z)
  /\ (exists e, song_info_of undated_track = Returns e /\ si_release_year e = None)
  /\ (exists e, song_info_of odd_date_track = Returns e /\ si_release_year e = None).
Proof.
  split; [|split].
  - destruct (release_year_is_leading_year gold_track _ _ eq_refl) as (H & _).
    apply (H "2023-05-01" "2023" eq_refl).
    split; [reflexivity|]. split; [reflexivity|].
    right. exists "05-01". reflexivity.
  - destruct (release_year_is_leading_year undated_track _ _ eq_refl) as (_ & H & _).
    apply H. left. reflexivity.
  - destruct (release_year_is_leading_year odd_date_track _ _ eq_refl) as (_ & _ & H & _).
    apply (H "unknown"); reflexivity.
Defined.

Lemma failed_attempt_counts_and_loop_continues_witness :
  (exists st',
     attempts_from json_loads repr prose_then_gold cfg_5_1 ∅ ∅ 0 5 (initial_state [])
     = attempts_from json_loads repr prose_then_gold cfg_5_1 ∅ ∅ 1 4 st'
     /\ collected_new_songs_for_playlist_details st' = [])
  /\ oracle_calls
       (calls (collection_loop json_loads repr prose_then_gold cfg_5_1 ∅ ∅ [])) = 2
  /\ collected_new_songs_for_playlist_details
       (collection_loop json_loads repr prose_then_gold cfg_5_1 ∅ ∅ []) = [gold_info].
Proof.
  destruct (failed_attempt_counts_and_loop_continues
              json_loads repr prose_then_gold cfg_5_1 ∅ ∅) as [Ha Hb].
  split.
  - apply (Ha 0 4 (initial_state [])); reflexivity.
  - apply (Hb [] prose_text gold_text "Gold" "Artist B" gold_track gold_info);
      reflexivity.
Defined.

Lemma parser_accepts_list_and_wrapped_list_witness :
  parse_response json_loads repr gold_text
  = valid_recommendations repr [JObj [("track", JStr "Gold"); ("artist", JStr "Artist B")]]
  /\ valid_recommendations repr [JStr "Gold"] = []
  /\ parse_response (fun _ => Some (JStr "Gold")) repr gold_text = []
  /\ parse_response json_loads repr prose_text = []
  /\ (exists st',
        attempt_body json_loads repr only_prose cfg_5_1 ∅ ∅ 0 (initial_state [])
        = Next st').
Proof.
  destruct (parser_accepts_list_and_wrapped_list json_loads repr)
    as (Hlist & Hkept & Hdropped & _ & Hnone & Hnext).
  split; [|split; [|split; [|split]]].
  - apply (Hlist gold_text (one_suggestion "Gold" "Artist B")); [reflexivity|].
    left. reflexivity.
  - apply (Hdropped (JStr "Gold") []).
    intros (members & Habs & _). discriminate Habs.
  - destruct (parser_accepts_list_and_wrapped_list (fun _ => Some (JStr "Gold")) repr)
      as (_ & _ & _ & Hother & _).
    apply (Hother gold_text (JStr "Gold")); [reflexivity|].
    intros l [Habs|[key Habs]]; discriminate Habs.
  - apply Hnone. reflexivity.
  - apply (Hnext only_prose cfg_5_1 ∅ ∅ 0 (initial_state []) prose_text); reflexivity.
Defined.

Lemma sync_requests_bounded_and_independent_witness :
  let st := collection_loop_upto json_loads repr prose_then_gold cfg_5_1 ∅ ∅ 5 [] in
  (exists rest,
     snd (playlist_sync (cannot_create NEW_PLAYLIST_NAME) cfg_5_1
            (prepared (Some "id of All AI Deep Cuts History")) st)
     = [CallUserPlaylists; CallPlaylistCreate NEW_PLAYLIST_NAME]
       ++ CallAddItems "id of All AI Deep Cuts History" ["spotify:track:gold"] :: rest)
  /\ (exists first_uris rest,
        snd (playlist_sync (cannot_create ALL_RECS_PLAYLIST_NAME) cfg_5_1
               (prepared None) st)
        = [CallUserPlaylists; CallPlaylistCreate NEW_PLAYLIST_NAME]
          ++ CallReplaceItems "id of New AI Deep Cuts" first_uris :: rest).
Proof.
  intros st.
  assert (Hok : state_ok cfg_5_1 ∅ st) by apply collection_loop_upto_ok.
  assert (Hsome : collected_new_songs_for_playlist_details st <> []).
  { intros Habs. vm_compute in Habs. discriminate Habs. }
  split.
  - destruct (sync_requests_bounded_and_independent
                (cannot_create NEW_PLAYLIST_NAME) cfg_5_1
                (prepared (Some "id of All AI Deep Cuts History")) ∅ st Hok Hsome)
      as (_ & H & _).
    apply (H _ "id of All AI Deep Cuts History"); reflexivity.
  - destruct (sync_requests_bounded_and_independent
                (cannot_create ALL_RECS_PLAYLIST_NAME) cfg_5_1
                (prepared None) ∅ st Hok Hsome)
      as (_ & _ & H).
    apply (H _ "id of New AI Deep Cuts"); reflexivity.
Defined.

Lemma exit_codes_witness :
  main json_loads repr no_api_key cfg_5_1 = (Exit 1, [])
  /\ fst (main json_loads repr only_prose cfg_5_1) = Exit 0.
Proof.
  split.
  - apply (proj1 (exit_codes json_loads repr no_api_key cfg_5_1)).
    right. right. right. reflexivity.
  - destruct (startup only_prose) as [[t|p] ev] eqn:Hstart;
      [vm_compute in Hstart; discriminate Hstart|].
    destruct (proj2 (exit_codes json_loads repr only_prose cfg_5_1) p ev Hstart)
      as [Hmain _].
    + assert (Hp : fst (startup only_prose) = inr p) by (rewrite Hstart; reflexivity).
      vm_compute in Hp. injection Hp as <-. vm_compute. reflexivity.
    + rewrite Hmain. reflexivity.
Defined.

Lemma only_first_artist_recorded_witness :
  (forall s, s ∈ liked_song_of_item duet_item -> artist s = "Lead")
  /\ (exists a others,
        tr_artists gold_track = a :: others /\ artist_name a = "Artist B")
  /\ main json_loads repr (world_primary prose_then_gold) cfg_5_1
     = main json_loads repr prose_then_gold cfg_5_1.
Proof.
  destruct (only_first_artist_recorded json_loads repr prose_then_gold cfg_5_1)
    as (Hliked & _ & Hinfo & Hmain & _).
  split; [|split].
  - intros s Hs. destruct (Hliked duet_item s Hs) as (t & a & others & Ht & Ha & ->).
    injection Ht as <-. injection Ha as <- _. reflexivity.
  - destruct (Hinfo gold_track gold_info eq_refl) as (a & others & Ha & Hname).
    exists a, others. split; [exact Ha|]. rewrite <- Hname. reflexivity.
  - exact Hmain.
Defined.

End Witnesses.

(** * The further properties on the example data *)

Section MoreWitnesses.

Import Examples MoreExamples.

Lemma update_playlist_items_effect_witness :
  playlist_after ["spotify:track:old"]
    (snd (update_playlist_items (fun _ => false) (Some "pl") many_uris false))
  = "spotify:track:old" :: many_uris.
Proof.
  exact (proj1 (proj2 (update_playlist_items_effect
                         (fun _ => false) "pl" many_uris ["spotify:track:old"] false
                         eq_refl (fun _ => eq_refl)))).
Defined.

Lemma update_playlist_items_stops_at_failure_witness :
  exists n,
    second_raises n = true
    /\ List.length
         (snd (update_playlist_items second_raises (Some "pl") many_uris false)) = S n
    /\ forall j, j < n -> second_raises j = false.
Proof.
  destruct (update_playlist_items_stops_at_failure second_raises (Some "pl") many_uris false)
    as [_ H].
  destruct (H eq_refl) as (_ & _ & Hfail).
  apply Hfail. vm_compute. reflexivity.
Defined.

Lemma liked_songs_read_until_first_stop_witness :
  get_all_liked_songs_details_from pages_with_error 0
  = ([ {| track := "Red"; artist := "Artist C" |} ],
     [CallSavedTracks 0; CallSavedTracks 50]).
Proof.
  apply (liked_songs_read_until_first_stop
           [PageOf [saved "Red" "Artist C"] true] PageRaises
           [PageOf [saved "Green" "Artist G"] false] 0).
  - repeat constructor.
  - reflexivity.
Defined.

Lemma playlist_tracks_read_until_first_stop_witness :
  get_playlist_tracks_simplified_from "pl" pages_with_error 0
  = ([ {| pt_track := "Red"; pt_artist := "Artist C"; pt_id := "Red" |} ],
     [CallPlaylistItems "pl" 0; CallPlaylistItems "pl" 100]).
Proof.
  apply (playlist_tracks_read_until_first_stop "pl"
           [PageOf [saved "Red" "Artist C"] true] PageRaises
           [PageOf [saved "Green" "Artist G"] false] 0).
  - repeat constructor.
  - reflexivity.
Defined.

Lemma oracle_request_guards_witness :
  get_gemini_recommendations_google_ai json_loads repr prose_then_gold 0 (Some "key") []
  = (([], None), []).
Proof.
  apply (proj1 (oracle_request_guards json_loads repr prose_then_gold 0 (Some "key") [])).
  right. left. reflexivity.
Defined.

Lemma accept_batch_takes_all_it_can_witness :
  si_id gold_info
    ∈ map si_id (snd (accept_batch source_config ∅ ∅ [hit_info; gold_info] [] [])).
Proof.
  apply (accept_batch_takes_all_it_can source_config ∅ ∅ [hit_info; gold_info] [] []).
  - reflexivity.
  - vm_compute. lia.
  - apply elem_of_cons. right. apply elem_of_cons. left. reflexivity.
  - reflexivity.
Defined.

Lemma liked_song_rejected_whatever_the_case_witness :
  accepted source_config
    (all_my_liked_songs_set [ {| track := "Blue"; artist := "Artist A" |} ])
    ∅ [] shouted_blue = false.
Proof.
  apply (liked_song_rejected_whatever_the_case source_config
           [ {| track := "Blue"; artist := "Artist A" |} ] ∅ [] 
           {| track := "Blue"; artist := "Artist A" |} shouted_blue);
    try reflexivity; try discriminate.
  apply elem_of_cons. left. reflexivity.
Defined.

Lemma loop_budget_one_more_pass_witness :
  collection_loop_upto json_loads repr prose_then_gold cfg_5_1 ∅ ∅ 3 []
  = collection_loop_upto json_loads repr prose_then_gold cfg_5_1 ∅ ∅ 2 [].
Proof.
  apply (proj2 (loop_budget_one_more_pass json_loads repr prose_then_gold cfg_5_1 ∅ ∅ [] 2)).
  vm_compute. lia.
Defined.

Lemma larger_budget_only_appends_witness :
  calls (collection_loop_upto json_loads repr prose_then_gold cfg_5_1 ∅ ∅ 1 [])
    `prefix_of` calls (collection_loop_upto json_loads repr prose_then_gold cfg_5_1 ∅ ∅ 5 []).
Proof.
  assert (Hle : 1 <= 5) by lia.
  destruct (larger_budget_only_appends json_loads repr prose_then_gold cfg_5_1 ∅ ∅ [] 1 5 Hle)
    as (_ & _ & _ & _ & H).
  exact H.
Defined.

Lemma run_without_liked_songs_witness :
  main json_loads repr no_liked_songs cfg_5_1 = (Exit 0, [CallMe; CallSavedTracks 0]).
Proof.
  apply (proj2 (run_without_liked_songs json_loads repr no_liked_songs cfg_5_1 eq_refl) "me");
    reflexivity.
Defined.

Lemma nothing_to_do_makes_no_call_witness :
  collection_loop json_loads repr prose_then_gold cfg_target_zero ∅ ∅ [] = initial_state [].
Proof.
  apply (nothing_to_do_makes_no_call json_loads repr prose_then_gold cfg_target_zero ∅ ∅ []).
  left. reflexivity.
Defined.

Lemma successful_sync_fills_both_playlists_witness :
  let st := collection_loop_upto json_loads repr prose_then_gold cfg_5_1 ∅ ∅ 5 [] in
  let p := prepared (Some "id of All AI Deep Cuts History") in
  playlist_content "id of New AI Deep Cuts" ["spotify:track:stale"]
    (snd (playlist_sync prose_then_gold cfg_5_1 p st)) = ["spotify:track:gold"]
  /\ playlist_content "id of All AI Deep Cuts History" ["spotify:track:old"]
       (snd (playlist_sync prose_then_gold cfg_5_1 p st))
     = ["spotify:track:old"; "spotify:track:gold"].
Proof.
  intros st p.
  assert (Hok : state_ok cfg_5_1 ∅ st) by apply collection_loop_upto_ok.
  assert (Hsome : collected_new_songs_for_playlist_details st <> []).
  { intros Habs. vm_compute in Habs. discriminate Habs. }
  destruct (successful_sync_fills_both_playlists prose_then_gold cfg_5_1 p ∅ st
              "id of New AI Deep Cuts" "id of All AI Deep Cuts History"
              [CallUserPlaylists; CallPlaylistCreate NEW_PLAYLIST_NAME]
              ["spotify:track:stale"] ["spotify:track:old"]
              Hok Hsome eq_refl eq_refl eq_refl eq_refl)
    as (_ & Hnew & Hall); try discriminate.
  - intros n k. reflexivity.
  - split; [exact Hnew|exact Hall].
Defined.

Lemma search_hit_becomes_candidate_witness :
  exists e, resolve (SearchItems [gold_track]) = [e] /\ si_artist e = "Artist B".
Proof.
  destruct (proj2 (search_hit_becomes_candidate gold_track)
              {| artist_name := "Artist B" |} [ {| artist_name := "Guest" |} ] eq_refl)
    as (e & He & _ & _ & _ & Ha & _).
  - intros date [= <-]. reflexivity.
  - exists e. split; [exact He|exact Ha].
Defined.

End MoreWitnesses.
